(** * A relational model of the twitter_clone backend

    The development follows the layout of the repository:
    - [src/models.py]   : the tables [user], [tweet], [media] and the two
                          association tables [followers] and [likes];
    - [src/services.py] : the operations on them;
    - [src/routes.py]   : the request validation in front of [create_tweet]
                          and the dispatch on the services' error messages.

    A table is the list of its rows in the order a sequential scan yields
    them.  Identifiers and timestamps are integers.  A string literal
    holds a text by its UTF-8 bytes; where the code counts characters (the
    280 of [create_tweet_route]) the count is [len], the number of code
    points, not [String.length]. *)

From Stdlib Require Import ZArith List String Ascii Bool Lia.
From Stdlib Require Import Sorted Permutation.
Import ListNotations.
Open Scope string_scope.
Open Scope list_scope.
Open Scope Z_scope.

(** ** models.py *)

Module User.
Record t := mk { id : Z; name : string; api_key : string }.
End User.

Module Tweet.
Record t := mk { id : Z; content : string; created_at : Z; user_id : Z }.
End Tweet.

Module Media.
Record t := mk {
  id : Z;
  filename : string;
  path : string;
  uploaded_at : Z;
  user_id : Z;
  tweet_id : option Z  (* nullable foreign key *)
}.

(** [Media.get_url]: f"/static/uploads/{self.filename}" *)
Definition get_url (self : t) : string :=
  ("/static/uploads/" ++ filename self)%string.

Definition set_tweet_id (self : t) (v : option Z) : t :=
  mk (id self) (filename self) (path self) (uploaded_at self) (user_id self) v.
End Media.

(** The database: the three model tables and the two association tables.
    A row of [followers] is (follower_id, followed_id), a row of [likes] is
    (user_id, tweet_id). *)
Record Store := mkStore {
  users : list User.t;
  tweets : list Tweet.t;
  medias : list Media.t;
  followers : list (Z * Z);
  likes : list (Z * Z)
}.

Definition set_tweets (st : Store) (l : list Tweet.t) : Store :=
  mkStore (users st) l (medias st) (followers st) (likes st).
Definition set_medias (st : Store) (l : list Media.t) : Store :=
  mkStore (users st) (tweets st) l (followers st) (likes st).
Definition set_followers (st : Store) (l : list (Z * Z)) : Store :=
  mkStore (users st) (tweets st) (medias st) l (likes st).
Definition set_likes (st : Store) (l : list (Z * Z)) : Store :=
  mkStore (users st) (tweets st) (medias st) (followers st) l.

(** Integer primary keys are assigned by the database on insert: a key
    larger than every key of the table. *)
Definition next_id (ids : list Z) : Z := 1 + fold_right Z.max 0 ids.

(** [Model.query.get(pk)] *)
Definition User_get (st : Store) (pk : Z) : option User.t :=
  find (fun u => User.id u =? pk) (users st).
Definition Tweet_get (st : Store) (pk : Z) : option Tweet.t :=
  find (fun t => Tweet.id t =? pk) (tweets st).

(** A many-to-many relationship through an association table is the join
    of the selected association rows with the [user] table. *)
Definition join_users (st : Store) (ids : list Z) : list User.t :=
  flat_map (fun i => filter (fun u => User.id u =? i) (users st)) ids.

(** [user.following]: followers.follower_id == user.id, joined on
    followers.followed_id == user.id *)
Definition User_following (st : Store) (user : User.t) : list User.t :=
  join_users st
    (map snd (filter (fun e => fst e =? User.id user) (followers st))).

(** [user.followers], the backref of [following] *)
Definition User_followers (st : Store) (user : User.t) : list User.t :=
  join_users st
    (map fst (filter (fun e => snd e =? User.id user) (followers st))).

(** [tweet.likes] *)
Definition Tweet_likes (st : Store) (tweet : Tweet.t) : list User.t :=
  join_users st
    (map fst (filter (fun e => snd e =? Tweet.id tweet) (likes st))).

(** [tweet.medias] *)
Definition Tweet_medias (st : Store) (tweet : Tweet.t) : list Media.t :=
  filter (fun m => match Media.tweet_id m with
                   | Some i => i =? Tweet.id tweet
                   | None => false
                   end) (medias st).

(** [tweet.user], the backref of [User.tweets] *)
Definition Tweet_user (st : Store) (tweet : Tweet.t) : option User.t :=
  User_get st (Tweet.user_id tweet).

(** ** The unit of work

    [db.session.flush()] and [db.session.commit()] either go through or
    raise [SQLAlchemyError]; which of the two happens is decided by the
    database, so every mutating service takes the outcome as an argument.
    On [SQLAlchemyError e] the service rolls back and returns [str(e)]. *)
Inductive Session := Commit | SQLAlchemyError (e : string).

(** ** services.py *)

Definition msg_tweet_not_found : string := "Твит не найден".
Definition msg_not_owner : string := "Удалять можно только свои твиты".
Definition msg_self_follow : string := "Нельзя подписаться на себя".
Definition msg_user_not_found : string := "Пользователь не найден".

Definition in_ (x : Z) (l : list Z) : bool := existsb (Z.eqb x) l.

(** Python truth value of an [Optional[List[int]]] *)
Definition truthy (l : option (list Z)) : bool :=
  match l with
  | None | Some [] => false
  | Some (_ :: _) => true
  end.

(** The ids [Media.id.in_(media_ids)] ranges over *)
Definition given_ids (media_ids : option (list Z)) : list Z :=
  match media_ids with
  | Some l => l
  | None => []
  end.

(** One row of [media] after the loop of [create_tweet]: the rows selected
    by [Media.id.in_(media_ids), Media.user_id == user.id] get
    [media.tweet_id = tweet.id], the others are not touched. *)
Definition attach (ids : list Z) (user : User.t) (tweet : Tweet.t)
    (media : Media.t) : Media.t :=
  if in_ (Media.id media) ids && (Media.user_id media =? User.id user)
  then Media.set_tweet_id media (Some (Tweet.id tweet))
  else media.

(** [create_tweet]; [now] is the clock reading taken by the default of
    [Tweet.created_at]. *)
Definition create_tweet (st : Store) (now : Z) (db : Session) (user : User.t)
    (content : string) (media_ids : option (list Z))
  : Store * (bool * option Z * option string) :=
  let tweet :=
    Tweet.mk (next_id (map Tweet.id (tweets st))) content now (User.id user) in
  let st1 := set_tweets st (tweets st ++ [tweet]) in
  let st2 :=
    if truthy media_ids
    then set_medias st1
           (map (attach (given_ids media_ids) user tweet) (medias st1))
    else st1 in
  match db with
  | Commit => (st2, (true, Some (Tweet.id tweet), None))
  | SQLAlchemyError e => (st, (false, None, Some e))
  end.

(** [upload_media]; [now] is the default of [Media.uploaded_at]. *)
Definition upload_media (st : Store) (now : Z) (db : Session) (user : User.t)
    (filename path : string)
  : Store * (bool * option Z * option string) :=
  let media :=
    Media.mk (next_id (map Media.id (medias st))) filename path now
             (User.id user) None in
  match db with
  | Commit => (set_medias st (medias st ++ [media]), (true, Some (Media.id media), None))
  | SQLAlchemyError e => (st, (false, None, Some e))
  end.

(** [db.session.delete(tweet)] followed by the flush.  The relationships
    declared in models.py decide what the unit of work emits:
    - [Tweet.likes] has a [secondary] table: the association rows of the
      loaded collection are deleted;
    - [Tweet.medias] has no delete cascade: the foreign key of every child
      is set to NULL;
    - the [tweet] row itself is deleted. *)
Definition session_delete_tweet (st : Store) (tweet : Tweet.t) : Store :=
  let likers := map User.id (Tweet_likes st tweet) in
  mkStore
    (users st)
    (filter (fun t => negb (Tweet.id t =? Tweet.id tweet)) (tweets st))
    (map (fun m => match Media.tweet_id m with
                   | Some i => if i =? Tweet.id tweet
                               then Media.set_tweet_id m None else m
                   | None => m
                   end) (medias st))
    (followers st)
    (filter (fun e => negb ((snd e =? Tweet.id tweet) && in_ (fst e) likers))
            (likes st)).

Definition delete_tweet (st : Store) (db : Session) (user : User.t)
    (tweet_id : Z) : Store * (bool * option string) :=
  match Tweet_get st tweet_id with
  | None => (st, (false, Some msg_tweet_not_found))
  | Some tweet =>
      if negb (Tweet.user_id tweet =? User.id user)
      then (st, (false, Some msg_not_owner))
      else match db with
           | Commit => (session_delete_tweet st tweet, (true, None))
           | SQLAlchemyError e => (st, (false, Some e))
           end
  end.

(** [tweet.likes.filter(User.id == user.id).first()] *)
Definition existing_like (st : Store) (tweet : Tweet.t) (user : User.t)
  : option User.t :=
  hd_error (filter (fun u => User.id u =? User.id user) (Tweet_likes st tweet)).

Definition like_tweet (st : Store) (db : Session) (user : User.t)
    (tweet_id : Z) : Store * (bool * option string) :=
  match Tweet_get st tweet_id with
  | None => (st, (false, Some msg_tweet_not_found))
  | Some tweet =>
      match existing_like st tweet user with
      | Some _ => (st, (true, None))
      | None =>
          match db with
          | Commit =>
              (set_likes st (likes st ++ [(User.id user, Tweet.id tweet)]),
               (true, None))
          | SQLAlchemyError e => (st, (false, Some e))
          end
      end
  end.

Definition unlike_tweet (st : Store) (db : Session) (user : User.t)
    (tweet_id : Z) : Store * (bool * option string) :=
  match Tweet_get st tweet_id with
  | None => (st, (false, Some msg_tweet_not_found))
  | Some tweet =>
      match existing_like st tweet user with
      | None => (st, (true, None))
      | Some _ =>
          match db with
          | Commit =>
              (set_likes st
                 (filter (fun e => negb ((fst e =? User.id user)
                                         && (snd e =? Tweet.id tweet)))
                         (likes st)),
               (true, None))
          | SQLAlchemyError e => (st, (false, Some e))
          end
      end
  end.

(** [x in user.following]: ORM objects are compared by identity, that is
    by primary key. *)
Definition in_following (st : Store) (x user : User.t) : bool :=
  existsb (fun u => User.id u =? User.id x) (User_following st user).

Definition follow_user (st : Store) (db : Session) (user : User.t)
    (user_id_to_follow : Z) : Store * (bool * option string) :=
  if User.id user =? user_id_to_follow
  then (st, (false, Some msg_self_follow))
  else
    match User_get st user_id_to_follow with
    | None => (st, (false, Some msg_user_not_found))
    | Some user_to_follow =>
        if in_following st user_to_follow user
        then (st, (true, None))
        else match db with
             | Commit =>
                 (set_followers st
                    (followers st ++ [(User.id user, User.id user_to_follow)]),
                  (true, None))
             | SQLAlchemyError e => (st, (false, Some e))
             end
    end.

Definition unfollow_user (st : Store) (db : Session) (user : User.t)
    (user_id_to_unfollow : Z) : Store * (bool * option string) :=
  match User_get st user_id_to_unfollow with
  | None => (st, (false, Some msg_user_not_found))
  | Some user_to_unfollow =>
      if negb (in_following st user_to_unfollow user)
      then (st, (true, None))
      else match db with
           | Commit =>
               (set_followers st
                  (filter (fun e => negb ((fst e =? User.id user)
                                          && (snd e =? User.id user_to_unfollow)))
                          (followers st)),
                (true, None))
           | SQLAlchemyError e => (st, (false, Some e))
           end
  end.

(** [ORDER BY tweet.created_at DESC].  The clause names no second key, so
    rows with equal timestamps stay in the order the scan delivers them:
    [r] goes in front of the first row that is not newer than it. *)
Fixpoint insert_desc (r : Tweet.t) (rows : list Tweet.t) : list Tweet.t :=
  match rows with
  | [] => [r]
  | r' :: rows' =>
      if Tweet.created_at r' <=? Tweet.created_at r
      then r :: rows
      else r' :: insert_desc r rows'
  end.

Definition order_by_created_at_desc (rows : list Tweet.t) : list Tweet.t :=
  fold_right insert_desc [] rows.

(** [followed_ids] and [tweets_query.all()] of [get_timeline] *)
Definition followed_ids (st : Store) (user : User.t) : list Z :=
  map User.id (User_following st user).

Definition tweets_query (st : Store) (user : User.t) : list Tweet.t :=
  order_by_created_at_desc
    (filter (fun t => (Tweet.user_id t =? User.id user)
                      || in_ (Tweet.user_id t) (followed_ids st user))
            (tweets st)).

(** The dict [get_timeline] builds for one tweet. *)
Record TweetView := mkView {
  view_id : Z;
  view_content : string;
  view_attachments : list string;
  view_author : Z * string;          (* {"id": ..., "name": ...} *)
  view_likes : list (Z * string)     (* [{"user_id": ..., "name": ...}] *)
}.

(** [tweet.user.id] raises [AttributeError] when the author row is
    missing: no view then. *)
Definition tweet_view (st : Store) (tweet : Tweet.t) : option TweetView :=
  match Tweet_user st tweet with
  | None => None
  | Some author =>
      Some (mkView (Tweet.id tweet)
                   (Tweet.content tweet)
                   (map Media.get_url (Tweet_medias st tweet))
                   (User.id author, User.name author)
                   (map (fun u => (User.id u, User.name u))
                        (Tweet_likes st tweet)))
  end.

Fixpoint collect {A B : Type} (f : A -> option B) (l : list A)
  : option (list B) :=
  match l with
  | [] => Some []
  | x :: l' =>
      match f x with
      | None => None
      | Some y =>
          match collect f l' with
          | None => None
          | Some ys => Some (y :: ys)
          end
      end
  end.

Definition get_timeline (st : Store) (user : User.t)
  : option (list TweetView) :=
  collect (tweet_view st) (tweets_query st user).

(** ** routes.py *)

(** A decoded JSON value of the request body. *)
#[local] Unset Elimination Schemes.
Inductive Json :=
| JNull
| JBool (b : bool)
| JInt (z : Z)
| JReal (literal : string)
| JStr (s : string)
| JList (items : list Json)
| JObject (fields : list (string * Json)).
#[local] Set Elimination Schemes.

(** [isinstance(i, int)]: [bool] is a subclass of [int]. *)
Definition as_int (v : Json) : option Z :=
  match v with
  | JInt z => Some z
  | JBool b => Some (if b then 1 else 0)
  | _ => None
  end.

(** The JSON body of a response together with the HTTP status. *)
Record Response := mkResponse {
  status : Z;
  result : bool;
  payload_id : option Z;             (* "tweet_id" *)
  error_type : option string;
  error_message : option string
}.

Definition error_response (ty msg : string) (code : Z) : Response :=
  mkResponse code false None (Some ty) (Some msg).

(** Python's [len] of a text held by its UTF-8 bytes: the number of code
    points, one for every byte that is not a continuation byte (128 to
    191). *)
Definition is_continuation (c : ascii) : bool :=
  let n := N_of_ascii c in ((128 <=? n) && (n <? 192))%N.

Fixpoint len (s : string) : nat :=
  match s with
  | EmptyString => O
  | String c s' => if is_continuation c then len s' else S (len s')
  end.

Definition msg_tweet_data_required : string :=
  "Поле tweet_data обязательно и должно быть строкой".
Definition msg_tweet_too_long : string :=
  "Длина твита не должна превышать 280 символов".
Definition msg_media_ids_type : string :=
  "tweet_media_ids должен быть списком целых чисел".

(** [create_tweet_route]; [tweet_data] and [tweet_media_ids] are the two
    fields [data.get] reads, [None] when the key is absent.  [user] is
    [g.current_user].  The first test,
    [not tweet_data or not isinstance(tweet_data, str)], lets nothing but
    a non-empty string through. *)
Definition create_tweet_route (st : Store) (now : Z) (db : Session)
    (user : User.t) (tweet_data tweet_media_ids : option Json)
  : Store * Response :=
  let tweet_media_ids :=
    match tweet_media_ids with Some v => v | None => JList [] end in
  match tweet_data with
  | Some (JStr s) =>
      if (s =? "")%string
      then (st, error_response "ValidationError" msg_tweet_data_required 400)
      else if Z.of_nat (len s) >? 280
      then (st, error_response "ValidationError" msg_tweet_too_long 400)
      else
        match tweet_media_ids with
        | JList items =>
            match collect as_int items with
            | None =>
                (st, error_response "ValidationError" msg_media_ids_type 400)
            | Some ids =>
                match create_tweet st now db user s (Some ids) with
                | (st', (true, tweet_id, _)) =>
                    (st', mkResponse 201 true tweet_id None None)
                | (st', (false, _, _)) =>
                    (st', error_response "ServerError"
                                         "Внутренняя ошибка сервера" 500)
                end
            end
        | _ => (st, error_response "ValidationError" msg_media_ids_type 400)
        end
  | _ => (st, error_response "ValidationError" msg_tweet_data_required 400)
  end.

Definition delete_tweet_route (st : Store) (db : Session) (user : User.t)
    (tweet_id : Z) : Store * Response :=
  match delete_tweet st db user tweet_id with
  | (st', (true, _)) => (st', mkResponse 200 true None None None)
  | (st', (false, error)) =>
      let error := match error with Some e => e | None => "" end in
      if (error =? msg_tweet_not_found)%string
      then (st', error_response "NotFoundError" error 404)
      else if (error =? msg_not_owner)%string
      then (st', error_response "PermissionError" error 403)
      else (st', error_response "ServerError" "Ошибка сервера" 500)
  end.

Definition follow_user_route (st : Store) (db : Session) (user : User.t)
    (user_id : Z) : Store * Response :=
  match follow_user st db user user_id with
  | (st', (true, _)) => (st', mkResponse 200 true None None None)
  | (st', (false, error)) =>
      let error := match error with Some e => e | None => "" end in
      if (error =? msg_self_follow)%string
      then (st', error_response "ValidationError" error 400)
      else if (error =? msg_user_not_found)%string
      then (st', error_response "NotFoundError" error 404)
      else (st', error_response "ServerError" "Ошибка сервера" 500)
  end.

(** ** The error kinds of the specification

    The services report an error as a message; the routes tell the kinds
    apart by comparing messages, and so does [error_kind]. *)
Inductive ErrorKind := NotFound | Forbidden | SelfReference | PersistenceError.

Definition error_kind (msg : string) : ErrorKind :=
  if (msg =? msg_tweet_not_found)%string then NotFound
  else if (msg =? msg_user_not_found)%string then NotFound
  else if (msg =? msg_not_owner)%string then Forbidden
  else if (msg =? msg_self_follow)%string then SelfReference
  else PersistenceError.

(** ** The constraints models.py declares

    Primary keys are unique, the composite keys of the association tables
    included, and every foreign key points at a row. *)
Definition user_ids (st : Store) : list Z := map User.id (users st).
Definition tweet_ids (st : Store) : list Z := map Tweet.id (tweets st).
Definition media_ids_of (st : Store) : list Z := map Media.id (medias st).

Record schema (st : Store) : Prop := mkSchema {
  pk_user : NoDup (user_ids st);
  pk_tweet : NoDup (tweet_ids st);
  pk_media : NoDup (media_ids_of st);
  pk_followers : NoDup (followers st);
  pk_likes : NoDup (likes st);
  fk_tweet_user :
    forall t, In t (tweets st) -> In (Tweet.user_id t) (user_ids st);
  fk_media_user :
    forall m, In m (medias st) -> In (Media.user_id m) (user_ids st);
  fk_media_tweet :
    forall m i, In m (medias st) -> Media.tweet_id m = Some i ->
                In i (tweet_ids st);
  fk_followers :
    forall e, In e (followers st) ->
              In (fst e) (user_ids st) /\ In (snd e) (user_ids st);
  fk_likes :
    forall e, In e (likes st) ->
              In (fst e) (user_ids st) /\ In (snd e) (tweet_ids st)
}.

(** The order the specification asks of a timeline: newest first, and the
    larger id first among equal timestamps. *)
Definition newer_or_larger_id (a b : Tweet.t) : Prop :=
  Tweet.created_at b < Tweet.created_at a
  \/ (Tweet.created_at a = Tweet.created_at b /\ Tweet.id b < Tweet.id a).

(** Newest first, nothing said about equal timestamps. *)
Definition not_older (a b : Tweet.t) : Prop :=
  Tweet.created_at b <= Tweet.created_at a.

(** ** A small database *)

Definition alice : User.t := User.mk 1 "alice" "key-a".
Definition bob : User.t := User.mk 2 "bob" "key-b".
Definition carol : User.t := User.mk 3 "carol" "key-c".

Definition hello : Tweet.t := Tweet.mk 1 "Hello world!" 100 1.
Definition hi : Tweet.t := Tweet.mk 2 "Hi" 100 2.
Definition hey : Tweet.t := Tweet.mk 3 "Hey" 50 3.

Definition photo : Media.t :=
  Media.mk 1 "photo.png" "static/uploads/photo.png" 90 1 (Some 1).
Definition clip : Media.t :=
  Media.mk 2 "clip.gif" "static/uploads/clip.gif" 95 2 None.

(** alice follows bob, bob likes alice's tweet. *)
Definition demo : Store :=
  mkStore [alice; bob; carol] [hello; hi; hey] [photo; clip] [(1, 2)] [(2, 1)].

Definition empty_store : Store := mkStore [] [] [] [] [].

(** The number of rows of an association table that carry the pair
    [(a, b)]. *)
Definition count_edges (a b : Z) (edges : list (Z * Z)) : nat :=
  List.length (filter (fun e => (fst e =? a) && (snd e =? b)) edges).

(** Python's [c * n] *)
Fixpoint replicate (n : nat) (c : ascii) : string :=
  match n with
  | O => EmptyString
  | S n' => String c (replicate n' c)
  end.

(** ["a" * 281], the text of [test_create_tweet_too_long] *)
Definition long_text : string := replicate 281 "a".

(** Python's [s * n] *)
Fixpoint repeat_text (n : nat) (s : string) : string :=
  match n with
  | O => EmptyString
  | S n' => (s ++ repeat_text n' s)%string
  end.

(** 141 Cyrillic letters: 141 characters in 282 bytes *)
Definition cyrillic_text : string := repeat_text 141 "я".

(** ** services.py: the lookup the profile route uses *)

Definition get_user_by_id (st : Store) (user_id : Z) : option User.t :=
  User_get st user_id.

(** ** routes.py: uploads *)

Definition ALLOWED_EXTENSIONS : list string := ["jpg"; "jpeg"; "png"; "gif"].

(** ["." in filename] *)
Fixpoint has_dot (s : string) : bool :=
  match s with
  | EmptyString => false
  | String c s' => (c =? ".")%char || has_dot s'
  end.

(** [filename.rsplit(".", 1)[1]]: what follows the last dot.  Without a
    dot the split has one item and the index raises: [None]. *)
Fixpoint rsplit_dot (s : string) : option string :=
  match s with
  | EmptyString => None
  | String c s' =>
      match rsplit_dot s' with
      | Some extension => Some extension
      | None => if (c =? ".")%char then Some s' else None
      end
  end.

(** [str.lower] on one character below 256: A-Z, and the capital letters
    of Latin-1 (192-222, the multiplication sign 215 excepted). *)
Definition lower_char (c : ascii) : ascii :=
  let n := N_of_ascii c in
  if ((65 <=? n) && (n <=? 90))%N
     || ((192 <=? n) && (n <=? 222) && negb (n =? 215))%N
  then ascii_of_N (n + 32)
  else c.

Fixpoint lower (s : string) : string :=
  match s with
  | EmptyString => EmptyString
  | String c s' => String (lower_char c) (lower s')
  end.

Definition allowed_file (filename : string) : bool :=
  if negb (has_dot filename) then false
  else
    match rsplit_dot filename with
    | Some extension =>
        existsb (String.eqb (lower extension)) ALLOWED_EXTENSIONS
    | None => false
    end.

(** [os.path.join] of two components on POSIX *)
Definition ends_with_slash (s : string) : bool :=
  match get (String.length s - 1) s with
  | Some c => (c =? "/")%char
  | None => false
  end.

Definition path_join (a b : string) : string :=
  match b with
  | String "/" _ => b
  | _ => if (a =? "")%string || ends_with_slash a
         then (a ++ b)%string
         else (a ++ "/" ++ b)%string
  end.

(** The upload folder: the saved files, the last write to a path first.
    [file.save] writes the bytes to the path. *)
Definition Files := list (string * string).

Definition file_save (fs : Files) (path data : string) : Files :=
  (path, data) :: fs.

Definition read_file (fs : Files) (path : string) : option string :=
  option_map snd (find (fun f => (fst f =? path)%string) fs).

(** [upload_media_route].  [file] is [request.files.get("file")] as the
    pair of [file.filename] and the bytes; [secure_filename] is
    werkzeug's.  The directories [os.makedirs] creates are not part of
    [Files], and [file.save] is taken to go through: the [except] clause
    around it names [SQLAlchemyError], which writing a file does not
    raise. *)
Definition upload_media_route (secure_filename : string -> string)
    (fs : Files) (st : Store) (now : Z) (db : Session) (user : User.t)
    (file : option (string * string)) : Files * Store * Response :=
  match file with
  | None =>
      (fs, st,
       error_response "ValidationError" "No file part in the request" 400)
  | Some (file_filename, data) =>
      if (file_filename =? "")%string
      then (fs, st, error_response "ValidationError" "No selected file" 400)
      else if negb (allowed_file file_filename)
      then (fs, st,
            error_response "ValidationError" "File type is not allowed" 400)
      else
        let filename := secure_filename file_filename in
        let upload_folder := path_join "static" "uploads" in
        let file_path := path_join upload_folder filename in
        let fs' := file_save fs file_path data in
        match upload_media st now db user filename file_path with
        | (st', (true, media_id, _)) =>
            (fs', st', mkResponse 201 true media_id None None)
        | (st', (false, _, _)) =>
            (fs', st',
             error_response "ServerError" "Internal server error" 500)
        end
  end.

(** ** routes.py: authentication *)

(** The body [{"error": ...}] of a refused request and its status. *)
Record AuthError := mkAuthError { auth_status : Z; auth_error : string }.

(** [User.query.filter_by(api_key=api_key).first()] *)
Definition User_by_api_key (st : Store) (api_key : string) : option User.t :=
  find (fun u => (User.api_key u =? api_key)%string) (users st).

(** [require_api_key]: [api_key] is [request.headers.get("api-key")], [f]
    the handler, called with [g.current_user]. *)
Definition require_api_key {R : Type} (st : Store) (api_key : option string)
    (f : User.t -> R) : AuthError + R :=
  match api_key with
  | None => inl (mkAuthError 401 "API key missing")
  | Some key =>
      if (key =? "")%string
      then inl (mkAuthError 401 "API key missing")
      else
        match User_by_api_key st key with
        | None => inl (mkAuthError 403 "Invalid API key")
        | Some user => inr (f user)
        end
  end.

(** ** routes.py: likes, unfollow and profiles *)

Definition like_tweet_route (st : Store) (db : Session) (user : User.t)
    (tweet_id : Z) : Store * Response :=
  match like_tweet st db user tweet_id with
  | (st', (true, _)) => (st', mkResponse 200 true None None None)
  | (st', (false, error)) =>
      let error := match error with Some e => e | None => "" end in
      if (error =? msg_tweet_not_found)%string
      then (st', error_response "NotFoundError" error 404)
      else (st', error_response "ServerError" "Ошибка сервера" 500)
  end.

Definition unlike_tweet_route (st : Store) (db : Session) (user : User.t)
    (tweet_id : Z) : Store * Response :=
  match unlike_tweet st db user tweet_id with
  | (st', (true, _)) => (st', mkResponse 200 true None None None)
  | (st', (false, error)) =>
      let error := match error with Some e => e | None => "" end in
      if (error =? msg_tweet_not_found)%string
      then (st', error_response "NotFoundError" error 404)
      else (st', error_response "ServerError" "Ошибка сервера" 500)
  end.

Definition unfollow_user_route (st : Store) (db : Session) (user : User.t)
    (user_id : Z) : Store * Response :=
  match unfollow_user st db user user_id with
  | (st', (true, _)) => (st', mkResponse 200 true None None None)
  | (st', (false, error)) =>
      let error := match error with Some e => e | None => "" end in
      if (error =? msg_user_not_found)%string
      then (st', error_response "NotFoundError" error 404)
      else (st', error_response "ServerError" "Ошибка сервера" 500)
  end.

(** The dict of [serialize_user] *)
Record Profile := mkProfile {
  profile_id : Z;
  profile_name : string;
  profile_followers : list (Z * string);
  profile_following : list (Z * string)
}.

Definition serialize_user (st : Store) (user : User.t) : Profile :=
  mkProfile (User.id user) (User.name user)
            (map (fun u => (User.id u, User.name u)) (User_followers st user))
            (map (fun u => (User.id u, User.name u)) (User_following st user)).

Definition get_user_profile_route (st : Store) (user_id : Z)
  : Response + Profile :=
  match get_user_by_id st user_id with
  | None => inl (error_response "NotFoundError" msg_user_not_found 404)
  | Some user => inr (serialize_user st user)
  end.

(** ** main.py: waiting for the database *)

Inductive Startup := Connected | RuntimeError (msg : string).

Definition msg_db_timeout : string :=
  "Не удалось подключиться к базе за отведенное время".

(** The loop of [wait_for_db] from attempt [i] on, [left] attempts to go.
    [connect i] tells whether [engine.connect()] goes through at attempt
    [i] or raises [OperationalError]; the second component counts the
    calls of [time.sleep(delay)]. *)
Fixpoint wait_for_db_loop (connect : nat -> bool) (i left : nat)
  : Startup * nat :=
  match left with
  | O => (RuntimeError msg_db_timeout, O)
  | S left' =>
      if connect i
      then (Connected, O)
      else let (r, sleeps) := wait_for_db_loop connect (S i) left' in
           (r, S sleeps)
  end.

(** [wait_for_db]; [range(retries)] is empty for [retries <= 0]. *)
Definition wait_for_db (connect : nat -> bool) (retries : Z) : Startup * nat :=
  wait_for_db_loop connect 0 (Z.to_nat retries).

(** * Properties *)

(** ** Queries and joins *)

Lemma in__In (x : Z) (l : list Z) : in_ x l = true <-> In x l.
Proof.
  unfold in_. rewrite existsb_exists. split.
  - intros [y [Hy E]]. apply Z.eqb_eq in E. now subst.
  - intros H. exists x. split; [assumption | apply Z.eqb_refl].
Qed.

Lemma in__false (x : Z) (l : list Z) : in_ x l = false <-> ~ In x l.
Proof.
  rewrite <- in__In. destruct (in_ x l); split; congruence.
Qed.

Lemma join_users_In (st : Store) (ids : list Z) (u : User.t) :
  In u (join_users st ids) <-> In u (users st) /\ In (User.id u) ids.
Proof.
  unfold join_users. rewrite in_flat_map. split.
  - intros [i [Hi Hu]]. apply filter_In in Hu as [Hu E].
    apply Z.eqb_eq in E. subst. auto.
  - intros [Hu Hi]. exists (User.id u). split; [assumption |].
    apply filter_In. split; [assumption | apply Z.eqb_refl].
Qed.

Lemma edge_fst_In (edges : list (Z * Z)) (a b : Z) :
  In b (map snd (filter (fun e => fst e =? a) edges)) <-> In (a, b) edges.
Proof.
  rewrite in_map_iff. split.
  - intros [[a' b'] [E H]]. apply filter_In in H as [H F]. simpl in *.
    apply Z.eqb_eq in F. now subst.
  - intros H. exists (a, b). split; [reflexivity |].
    apply filter_In. split; [assumption | apply Z.eqb_refl].
Qed.

Lemma edge_snd_In (edges : list (Z * Z)) (a b : Z) :
  In a (map fst (filter (fun e => snd e =? b) edges)) <-> In (a, b) edges.
Proof.
  rewrite in_map_iff. split.
  - intros [[a' b'] [E H]]. apply filter_In in H as [H F]. simpl in *.
    apply Z.eqb_eq in F. now subst.
  - intros H. exists (a, b). split; [reflexivity |].
    apply filter_In. split; [assumption | apply Z.eqb_refl].
Qed.

Lemma User_following_In (st : Store) (user u : User.t) :
  In u (User_following st user)
  <-> In u (users st) /\ In (User.id user, User.id u) (followers st).
Proof.
  unfold User_following. now rewrite join_users_In, edge_fst_In.
Qed.

Lemma Tweet_likes_In (st : Store) (tweet : Tweet.t) (u : User.t) :
  In u (Tweet_likes st tweet)
  <-> In u (users st) /\ In (User.id u, Tweet.id tweet) (likes st).
Proof.
  unfold Tweet_likes. now rewrite join_users_In, edge_snd_In.
Qed.

Lemma followed_ids_In (st : Store) (user : User.t) (i : Z) :
  In i (followed_ids st user)
  <-> In i (user_ids st) /\ In (User.id user, i) (followers st).
Proof.
  unfold followed_ids, user_ids. rewrite !in_map_iff. split.
  - intros [u [E H]]. apply User_following_In in H as [H1 H2]. subst.
    split; [now exists u | assumption].
  - intros [[u [E H1]] H2]. subst. exists u. split; [reflexivity |].
    now apply User_following_In.
Qed.

Lemma in_following_true (st : Store) (x user : User.t) :
  in_following st x user = true
  <-> In (User.id x) (user_ids st)
      /\ In (User.id user, User.id x) (followers st).
Proof.
  unfold in_following. rewrite existsb_exists, <- followed_ids_In.
  unfold followed_ids. rewrite in_map_iff. split.
  - intros [u [H E]]. apply Z.eqb_eq in E. now exists u.
  - intros [u [E H]]. exists u. split; [assumption | now apply Z.eqb_eq].
Qed.

Lemma existing_like_Some (st : Store) (tweet : Tweet.t) (user : User.t) :
  (exists u, existing_like st tweet user = Some u)
  <-> In (User.id user) (user_ids st)
      /\ In (User.id user, Tweet.id tweet) (likes st).
Proof.
  unfold existing_like, user_ids. split.
  - intros [u H].
    destruct (filter _ _) as [|u' l] eqn:F; [discriminate |].
    assert (In u' (u' :: l)) as Hin by now left.
    rewrite <- F in Hin. apply filter_In in Hin as [Hin E].
    apply Z.eqb_eq in E. apply Tweet_likes_In in Hin as [H1 H2].
    rewrite <- E. split; [now apply in_map | assumption].
  - intros [H1 H2]. apply in_map_iff in H1 as [u [E Hu]].
    assert (In u (filter (fun u => User.id u =? User.id user)
                         (Tweet_likes st tweet))) as Hin.
    { apply filter_In. split; [| now apply Z.eqb_eq].
      apply Tweet_likes_In. now rewrite E. }
    destruct (filter _ _) as [|u' l]; [contradiction | now exists u'].
Qed.

Lemma existing_like_None (st : Store) (tweet : Tweet.t) (user : User.t) :
  existing_like st tweet user = None
  <-> ~ (In (User.id user) (user_ids st)
         /\ In (User.id user, Tweet.id tweet) (likes st)).
Proof.
  rewrite <- existing_like_Some.
  destruct (existing_like st tweet user) as [u|]; split.
  - discriminate.
  - intros H. exfalso. apply H. now exists u.
  - intros _ [u H]. discriminate.
  - reflexivity.
Qed.

Lemma find_id_Some {A : Type} (key : A -> Z) (l : list A) (pk : Z) :
  In pk (map key l) -> exists x, find (fun y => key y =? pk) l = Some x.
Proof.
  induction l as [|a l IH]; simpl; [contradiction |].
  intros [E | H].
  - subst. rewrite Z.eqb_refl. now exists a.
  - destruct (key a =? pk); [now exists a | auto].
Qed.

Lemma find_id_sound {A : Type} (key : A -> Z) (l : list A) (pk : Z) (x : A) :
  find (fun y => key y =? pk) l = Some x -> In x l /\ key x = pk.
Proof.
  intros H. apply find_some in H as [H E]. now apply Z.eqb_eq in E.
Qed.

Lemma find_id_None {A : Type} (key : A -> Z) (l : list A) (pk : Z) :
  find (fun y => key y =? pk) l = None <-> ~ In pk (map key l).
Proof.
  split.
  - intros H Hin. apply find_id_Some in Hin as [x Hx]. congruence.
  - intros H. destruct (find _ l) as [x|] eqn:F; [| reflexivity].
    apply find_id_sound in F as [F E]. exfalso. apply H. subst.
    now apply in_map.
Qed.

Lemma find_id_unique {A : Type} (key : A -> Z) (l : list A) (x : A) :
  NoDup (map key l) -> In x l -> find (fun y => key y =? key x) l = Some x.
Proof.
  induction l as [|a l IH]; simpl; [contradiction |].
  intros ND [E | H].
  - subst. now rewrite Z.eqb_refl.
  - inversion ND as [|? ? Hn ND']; subst.
    destruct (key a =? key x) eqn:E.
    + apply Z.eqb_eq in E. exfalso. apply Hn. rewrite E. now apply in_map.
    + auto.
Qed.

(** ** ORDER BY *)

Lemma insert_desc_perm (r : Tweet.t) (rows : list Tweet.t) :
  Permutation (insert_desc r rows) (r :: rows).
Proof.
  induction rows as [|r' rows IH]; simpl.
  - reflexivity.
  - destruct (Tweet.created_at r' <=? Tweet.created_at r).
    + reflexivity.
    + rewrite IH. apply perm_swap.
Qed.

Lemma order_by_perm (rows : list Tweet.t) :
  Permutation (order_by_created_at_desc rows) rows.
Proof.
  induction rows as [|r rows IH]; simpl.
  - constructor.
  - rewrite insert_desc_perm. now constructor.
Qed.

Lemma order_by_In (rows : list Tweet.t) (t : Tweet.t) :
  In t (order_by_created_at_desc rows) <-> In t rows.
Proof.
  split; apply Permutation_in;
    [apply order_by_perm | symmetry; apply order_by_perm].
Qed.

Lemma insert_desc_sorted (r : Tweet.t) (rows : list Tweet.t) :
  StronglySorted not_older rows -> StronglySorted not_older (insert_desc r rows).
Proof.
  induction rows as [|r' rows IH]; simpl; intros S.
  - repeat constructor.
  - destruct (Tweet.created_at r' <=? Tweet.created_at r) eqn:E.
    + apply Z.leb_le in E. constructor; [assumption |].
      inversion S as [|? ? S' F]; subst.
      constructor; [exact E |].
      eapply Forall_impl; [| exact F]. unfold not_older. intros; lia.
    + apply Z.leb_gt in E. inversion S as [|? ? S' F]; subst.
      constructor; [auto |].
      eapply Permutation_Forall; [symmetry; apply insert_desc_perm |].
      constructor; [unfold not_older; lia | assumption].
Qed.

Lemma order_by_sorted (rows : list Tweet.t) :
  StronglySorted not_older (order_by_created_at_desc rows).
Proof.
  induction rows as [|r rows IH]; simpl.
  - constructor.
  - now apply insert_desc_sorted.
Qed.

Lemma tweets_query_In (st : Store) (user : User.t) (t : Tweet.t) :
  In t (tweets_query st user)
  <-> In t (tweets st)
      /\ (Tweet.user_id t = User.id user
          \/ In (Tweet.user_id t) (followed_ids st user)).
Proof.
  unfold tweets_query. rewrite order_by_In, filter_In, orb_true_iff.
  now rewrite Z.eqb_eq, in__In.
Qed.

(** ** Building the views *)

Lemma collect_total {A B : Type} (f : A -> option B) (l : list A) :
  (forall x, In x l -> exists y, f x = Some y) ->
  exists ys, collect f l = Some ys.
Proof.
  induction l as [|a l IH]; simpl; intros H.
  - now exists [].
  - destruct (H a) as [y Hy]; [now left |]. rewrite Hy.
    destruct IH as [ys Hys]; [intros; apply H; now right |].
    rewrite Hys. now exists (y :: ys).
Qed.

Lemma collect_In {A B : Type} (f : A -> option B) (l : list A) (ys : list B) :
  collect f l = Some ys ->
  forall y, In y ys <-> exists x, In x l /\ f x = Some y.
Proof.
  revert ys. induction l as [|a l IH]; simpl; intros ys H y.
  - injection H as <-. simpl. split; [contradiction | now intros [? [[] _]]].
  - destruct (f a) as [b|] eqn:Fa; [| discriminate].
    destruct (collect f l) as [bs|]; [| discriminate].
    injection H as <-. simpl. rewrite (IH bs eq_refl). split.
    + intros [E | [x [Hx Fx]]].
      * subst. exists a. auto.
      * exists x. auto.
    + intros [x [[E | Hx] Fx]].
      * subst. left. congruence.
      * right. now exists x.
Qed.

Lemma collect_map {A B C : Type} (f : A -> option B) (g : A -> C) (h : B -> C)
    (l : list A) (ys : list B) :
  (forall x y, f x = Some y -> h y = g x) ->
  collect f l = Some ys -> map h ys = map g l.
Proof.
  intros Hfg. revert ys. induction l as [|a l IH]; simpl; intros ys H.
  - now injection H as <-.
  - destruct (f a) as [b|] eqn:Fa; [| discriminate].
    destruct (collect f l) as [bs|]; [| discriminate].
    injection H as <-. simpl. now rewrite (Hfg a b Fa), (IH bs eq_refl).
Qed.

Lemma tweet_view_id (st : Store) (t : Tweet.t) (v : TweetView) :
  tweet_view st t = Some v -> view_id v = Tweet.id t.
Proof.
  unfold tweet_view. destruct (Tweet_user st t); [| discriminate].
  now intros [= <-].
Qed.

Lemma tweet_view_total (st : Store) (t : Tweet.t) :
  In (Tweet.user_id t) (user_ids st) -> exists v, tweet_view st t = Some v.
Proof.
  intros H. unfold tweet_view, Tweet_user, User_get.
  apply find_id_Some in H as [u ->]. eauto.
Qed.

(** A timeline is built for every stored user: the author of each selected
    tweet is the user or one of the joined rows of [user.following]. *)
Lemma get_timeline_total (st : Store) (user : User.t) :
  In (User.id user) (user_ids st) ->
  exists views, get_timeline st user = Some views.
Proof.
  intros H. apply collect_total. intros t Ht.
  apply tweets_query_In in Ht as [_ [E | F]].
  - apply tweet_view_total. now rewrite E.
  - apply tweet_view_total. now apply followed_ids_In in F.
Qed.

Lemma get_timeline_ids (st : Store) (user : User.t) (views : list TweetView) :
  get_timeline st user = Some views ->
  map view_id views = map Tweet.id (tweets_query st user).
Proof.
  apply collect_map. apply tweet_view_id.
Qed.

Lemma tweet_view_author (st : Store) (t : Tweet.t) (v : TweetView) :
  tweet_view st t = Some v -> fst (view_author v) = Tweet.user_id t.
Proof.
  unfold tweet_view, Tweet_user, User_get.
  destruct (find _ (users st)) as [u|] eqn:F; [| discriminate].
  apply find_id_sound in F as [_ E]. now intros [= <-].
Qed.

(** ** The timeline *)

(** C1: in a database that respects its constraints, [get_timeline]
    returns for a stored user a view of exactly the tweets written by the
    user or by somebody the user follows, a follow being a row of the
    follower table: the author of every view is the user or the followed
    end of such a row, and every tweet of such an author has its view in
    the result. *)
Theorem get_timeline_own_and_followed (st : Store) (user : User.t) :
  schema st ->
  In (User.id user) (user_ids st) ->
  exists views,
    get_timeline st user = Some views
    /\ (forall v, In v views ->
          (fst (view_author v) = User.id user
           \/ In (User.id user, fst (view_author v)) (followers st))
          /\ exists t, In t (tweets st) /\ tweet_view st t = Some v)
    /\ (forall t, In t (tweets st) ->
          Tweet.user_id t = User.id user
          \/ In (User.id user, Tweet.user_id t) (followers st) ->
          exists v, In v views /\ tweet_view st t = Some v
                    /\ view_id v = Tweet.id t).
Proof.
  intros S Hu. destruct (get_timeline_total st user Hu) as [views Hv].
  exists views. split; [assumption |].
  pose proof (collect_In _ _ _ Hv) as Hin. split.
  - intros v Iv. apply Hin in Iv as [t [It Vt]].
    apply tweets_query_In in It as [It Ho].
    rewrite (tweet_view_author _ _ _ Vt). split; [| now exists t].
    destruct Ho as [E | F]; [now left | right].
    now apply followed_ids_In in F.
  - intros t It Ho.
    pose proof (fk_tweet_user st S t It) as Author.
    assert (In t (tweets_query st user)) as Iq.
    { apply tweets_query_In. split; [assumption |].
      destruct Ho as [E | F]; [now left | right].
      now apply followed_ids_In. }
    destruct (tweet_view_total st t Author) as [v Vt].
    exists v. split; [| split].
    + apply Hin. now exists t.
    + assumption.
    + now apply tweet_view_id in Vt.
Qed.

Lemma get_timeline_own_and_followed_witness :
  exists views,
    get_timeline demo alice = Some views
    /\ (forall v, In v views ->
          (fst (view_author v) = User.id alice
           \/ In (User.id alice, fst (view_author v)) (followers demo))
          /\ exists t, In t (tweets demo) /\ tweet_view demo t = Some v)
    /\ (forall t, In t (tweets demo) ->
          Tweet.user_id t = User.id alice
          \/ In (User.id alice, Tweet.user_id t) (followers demo) ->
          exists v, In v views /\ tweet_view demo t = Some v
                    /\ view_id v = Tweet.id t).
Proof.
  apply (get_timeline_own_and_followed demo alice).
  - constructor; simpl;
      try (repeat constructor; simpl; intuition (discriminate || congruence)).
    + intros t [<- | [<- | [<- | []]]]; simpl; auto.
    + intros m [<- | [<- | []]]; simpl; auto.
    + intros m i [<- | [<- | []]]; simpl; intros [= <-]; auto.
    + intros e [<- | []]; simpl; auto.
    + intros e [<- | []]; simpl; auto.
  - simpl. auto.
Defined.

(** C2, as the code has it: for a stored user the views of [get_timeline]
    follow the rows of the query, and these are sorted by creation
    timestamp, newest first.  Rows with equal timestamps come in no
    particular order of id. *)
Theorem get_timeline_newest_first (st : Store) (user : User.t) :
  In (User.id user) (user_ids st) ->
  exists views,
    get_timeline st user = Some views
    /\ map view_id views = map Tweet.id (tweets_query st user)
    /\ StronglySorted not_older (tweets_query st user).
Proof.
  intros Hu. destruct (get_timeline_total st user Hu) as [views Hv].
  exists views. split; [assumption |]. split.
  - now apply get_timeline_ids.
  - apply order_by_sorted.
Qed.

Lemma get_timeline_newest_first_witness :
  exists views,
    get_timeline demo alice = Some views
    /\ map view_id views = map Tweet.id (tweets_query demo alice)
    /\ StronglySorted not_older (tweets_query demo alice).
Proof.
  apply (get_timeline_newest_first demo alice). simpl. auto.
Defined.

(** C2, as the specification has it, fails: alice's own tweet 1 and bob's
    tweet 2 carry the same timestamp, and the timeline lists tweet 1
    first. *)
Lemma get_timeline_tie_break_by_id_fails :
  tweets_query demo alice = [hello; hi]
  /\ option_map (map view_id) (get_timeline demo alice) = Some [1; 2]
  /\ Tweet.created_at hello = Tweet.created_at hi
  /\ ~ StronglySorted newer_or_larger_id (tweets_query demo alice).
Proof.
  split; [reflexivity |]. split; [reflexivity |]. split; [reflexivity |].
  intros S. change (tweets_query demo alice) with [hello; hi] in S.
  inversion S as [|? ? _ F]; subst.
  inversion F as [|? ? H _]; subst.
  unfold newer_or_larger_id in H. simpl in H. lia.
Qed.

(** ** Like and follow edges *)

Lemma count_edges_app (a b : Z) (l l' : list (Z * Z)) :
  count_edges a b (l ++ l') = (count_edges a b l + count_edges a b l')%nat.
Proof.
  unfold count_edges. now rewrite filter_app, length_app.
Qed.

Lemma count_edges_absent (a b : Z) (l : list (Z * Z)) :
  ~ In (a, b) l -> count_edges a b l = 0%nat.
Proof.
  unfold count_edges. induction l as [|[x y] l IH]; simpl; intros H.
  - reflexivity.
  - destruct (x =? a) eqn:Ex; destruct (y =? b) eqn:Ey; simpl;
      try (apply IH; tauto).
    apply Z.eqb_eq in Ex, Ey. subst. tauto.
Qed.

Lemma count_edges_present (a b : Z) (l : list (Z * Z)) :
  NoDup l -> In (a, b) l -> count_edges a b l = 1%nat.
Proof.
  induction l as [|[x y] l IH]; simpl; intros ND H; [contradiction |].
  inversion ND as [|? ? Hn ND']; subst.
  unfold count_edges. simpl. fold (count_edges a b l).
  destruct ((x =? a) && (y =? b)) eqn:E.
  - apply andb_true_iff in E as [Ex Ey]. apply Z.eqb_eq in Ex, Ey. subst.
    simpl. fold (count_edges a b l). now rewrite count_edges_absent.
  - fold (count_edges a b l). destruct H as [H | H]; [| auto].
    injection H as -> ->. now rewrite !Z.eqb_refl in E.
Qed.

Lemma count_edges_single (a b : Z) : count_edges a b [(a, b)] = 1%nat.
Proof.
  unfold count_edges. simpl. now rewrite !Z.eqb_refl.
Qed.

Lemma Tweet_get_stored (st : Store) (tweet : Tweet.t) :
  In tweet (tweets st) ->
  exists t, Tweet_get st (Tweet.id tweet) = Some t
            /\ In t (tweets st) /\ Tweet.id t = Tweet.id tweet.
Proof.
  intros H. unfold Tweet_get.
  destruct (find_id_Some Tweet.id (tweets st) (Tweet.id tweet)) as [t Ht].
  - now apply in_map.
  - exists t. split; [assumption |]. now apply find_id_sound in Ht.
Qed.

Lemma User_get_stored (st : Store) (pk : Z) :
  In pk (user_ids st) ->
  exists u, User_get st pk = Some u /\ In u (users st) /\ User.id u = pk.
Proof.
  intros H. unfold User_get.
  destruct (find_id_Some User.id (users st) pk H) as [u Hu].
  exists u. split; [assumption |]. now apply find_id_sound in Hu.
Qed.

(** Liking twice: both calls succeed, the second changes nothing, one edge
    is left. *)
Lemma like_tweet_twice (st : Store) (db : Session) (user : User.t)
    (tweet : Tweet.t) :
  NoDup (likes st) ->
  In (User.id user) (user_ids st) ->
  In tweet (tweets st) ->
  exists st1,
    like_tweet st Commit user (Tweet.id tweet) = (st1, (true, None))
    /\ like_tweet st1 db user (Tweet.id tweet) = (st1, (true, None))
    /\ count_edges (User.id user) (Tweet.id tweet) (likes st1) = 1%nat.
Proof.
  intros ND Hu Ht. destruct (Tweet_get_stored st tweet Ht) as [t [G [_ E]]].
  unfold like_tweet. rewrite G.
  destruct (existing_like st t user) as [u|] eqn:L.
  - exists st. rewrite G, L. repeat split.
    assert (exists u', existing_like st t user = Some u') as X by eauto.
    apply existing_like_Some in X as [_ X]. rewrite E in X.
    now apply count_edges_present.
  - eexists. split; [reflexivity |].
    change (Tweet_get (set_likes st (likes st ++ [(User.id user, Tweet.id t)]))
                      (Tweet.id tweet))
      with (Tweet_get st (Tweet.id tweet)).
    rewrite G.
    destruct (proj2 (existing_like_Some
                       (set_likes st (likes st ++ [(User.id user, Tweet.id t)]))
                       t user)) as [u' ->].
    { split; [exact Hu |]. simpl. apply in_or_app. right. now left. }
    split; [reflexivity |]. simpl.
    apply existing_like_None in L.
    rewrite count_edges_app, E, count_edges_single, count_edges_absent;
      [reflexivity |].
    intros X. apply L. split; [assumption | now rewrite E].
Qed.

(** Unliking a tweet the user never liked succeeds and changes nothing. *)
Lemma unlike_tweet_absent (st : Store) (db : Session) (user : User.t)
    (tweet : Tweet.t) :
  In tweet (tweets st) ->
  ~ In (User.id user, Tweet.id tweet) (likes st) ->
  unlike_tweet st db user (Tweet.id tweet) = (st, (true, None)).
Proof.
  intros Ht Hn. destruct (Tweet_get_stored st tweet Ht) as [t [G [_ E]]].
  unfold unlike_tweet. rewrite G.
  replace (existing_like st t user) with (@None User.t); [reflexivity |].
  symmetry. apply existing_like_None. rewrite E. tauto.
Qed.

(** Following twice: both calls succeed, the second changes nothing, one
    edge is left. *)
Lemma follow_user_twice (st : Store) (db : Session) (user : User.t)
    (target : Z) :
  NoDup (followers st) ->
  In target (user_ids st) ->
  target <> User.id user ->
  exists st1,
    follow_user st Commit user target = (st1, (true, None))
    /\ follow_user st1 db user target = (st1, (true, None))
    /\ count_edges (User.id user) target (followers st1) = 1%nat.
Proof.
  intros ND Ht Hne. destruct (User_get_stored st target Ht) as [v [G [Hv E]]].
  unfold follow_user.
  replace (User.id user =? target) with false
    by (symmetry; apply Z.eqb_neq; congruence).
  rewrite G. destruct (in_following st v user) eqn:F.
  - exists st.
    replace (User.id user =? target) with false
      by (symmetry; apply Z.eqb_neq; congruence).
    rewrite G, F. repeat split.
    apply in_following_true in F as [_ F]. rewrite E in F.
    now apply count_edges_present.
  - eexists. split; [reflexivity |].
    replace (User.id user =? target) with false
      by (symmetry; apply Z.eqb_neq; congruence).
    change (User_get (set_followers st
                        (followers st ++ [(User.id user, User.id v)])) target)
      with (User_get st target).
    rewrite G.
    replace (in_following
               (set_followers st (followers st ++ [(User.id user, User.id v)]))
               v user) with true.
    + split; [reflexivity |]. simpl.
      rewrite count_edges_app, E, count_edges_single, count_edges_absent;
        [reflexivity |].
      intros X.
      assert (in_following st v user = true) as Y; [| congruence].
      apply in_following_true. rewrite E. tauto.
    + symmetry. apply in_following_true. split.
      * rewrite E. exact Ht.
      * simpl. apply in_or_app. right. now left.
Qed.

(** Unfollowing a user who is not followed succeeds and changes nothing. *)
Lemma unfollow_user_absent (st : Store) (db : Session) (user : User.t)
    (target : Z) :
  In target (user_ids st) ->
  ~ In (User.id user, target) (followers st) ->
  unfollow_user st db user target = (st, (true, None)).
Proof.
  intros Ht Hn. destruct (User_get_stored st target Ht) as [v [G [Hv E]]].
  unfold unfollow_user. rewrite G.
  replace (in_following st v user) with false; [reflexivity |].
  symmetry. apply not_true_is_false. intros F.
  apply in_following_true in F as [_ F]. rewrite E in F. contradiction.
Qed.

(** C3: like and follow edges behave as sets.  In a database whose
    association tables respect their composite keys, for stored users
    [user] and [target] (two different users) and a stored [tweet]:
    liking twice and following twice succeed both times and leave exactly
    one edge, the repeated call changing nothing; unliking and unfollowing
    an absent edge succeed and change nothing.  The repeated calls do not
    depend on the outcome of the unit of work, so no duplicate error can
    surface. *)
Theorem like_follow_edges_are_sets (st : Store) (db : Session)
    (user target : User.t) (tweet : Tweet.t) :
  NoDup (likes st) ->
  NoDup (followers st) ->
  In (User.id user) (user_ids st) ->
  In (User.id target) (user_ids st) ->
  User.id target <> User.id user ->
  In tweet (tweets st) ->
  (exists st1,
      like_tweet st Commit user (Tweet.id tweet) = (st1, (true, None))
      /\ like_tweet st1 db user (Tweet.id tweet) = (st1, (true, None))
      /\ count_edges (User.id user) (Tweet.id tweet) (likes st1) = 1%nat)
  /\ (~ In (User.id user, Tweet.id tweet) (likes st) ->
      unlike_tweet st db user (Tweet.id tweet) = (st, (true, None)))
  /\ (exists st1,
        follow_user st Commit user (User.id target) = (st1, (true, None))
        /\ follow_user st1 db user (User.id target) = (st1, (true, None))
        /\ count_edges (User.id user) (User.id target) (followers st1) = 1%nat)
  /\ (~ In (User.id user, User.id target) (followers st) ->
      unfollow_user st db user (User.id target) = (st, (true, None))).
Proof.
  intros NL NF Hu Hv Hne Ht. repeat split.
  - now apply like_tweet_twice.
  - now apply unlike_tweet_absent.
  - now apply follow_user_twice.
  - now apply unfollow_user_absent.
Qed.

Lemma like_follow_edges_are_sets_witness :
  (exists st1,
      like_tweet demo Commit alice (Tweet.id hi) = (st1, (true, None))
      /\ like_tweet st1 Commit alice (Tweet.id hi) = (st1, (true, None))
      /\ count_edges (User.id alice) (Tweet.id hi) (likes st1) = 1%nat)
  /\ (~ In (User.id alice, Tweet.id hi) (likes demo) ->
      unlike_tweet demo Commit alice (Tweet.id hi) = (demo, (true, None)))
  /\ (exists st1,
        follow_user demo Commit alice (User.id bob) = (st1, (true, None))
        /\ follow_user st1 Commit alice (User.id bob) = (st1, (true, None))
        /\ count_edges (User.id alice) (User.id bob) (followers st1) = 1%nat)
  /\ (~ In (User.id alice, User.id bob) (followers demo) ->
      unfollow_user demo Commit alice (User.id bob) = (demo, (true, None))).
Proof.
  apply (like_follow_edges_are_sets demo Commit alice bob hi); simpl.
  - repeat constructor. simpl. tauto.
  - repeat constructor. simpl. tauto.
  - auto.
  - auto.
  - discriminate.
  - auto.
Defined.

(** ** Deleting a tweet *)

Lemma delete_tweet_success (st st' : Store) (db : Session) (user : User.t)
    (tweet_id : Z) :
  delete_tweet st db user tweet_id = (st', (true, None)) ->
  exists tweet,
    Tweet_get st tweet_id = Some tweet
    /\ Tweet.id tweet = tweet_id
    /\ Tweet.user_id tweet = User.id user
    /\ st' = session_delete_tweet st tweet.
Proof.
  unfold delete_tweet, Tweet_get.
  destruct (find _ (tweets st)) as [t|] eqn:G; [| discriminate].
  destruct (Tweet.user_id t =? User.id user) eqn:O; simpl; [| discriminate].
  destruct db; [| discriminate]. intros [= <-].
  exists t. apply find_id_sound in G as [_ G]. apply Z.eqb_eq in O. auto.
Qed.

Lemma session_delete_tweet_tweets (st : Store) (tweet t : Tweet.t) :
  In t (tweets (session_delete_tweet st tweet)) ->
  In t (tweets st) /\ Tweet.id t <> Tweet.id tweet.
Proof.
  simpl. rewrite filter_In, negb_true_iff, Z.eqb_neq. tauto.
Qed.

Lemma session_delete_tweet_likes (st : Store) (tweet : Tweet.t) (u : Z) :
  (forall e, In e (likes st) -> In (fst e) (user_ids st)) ->
  ~ In (u, Tweet.id tweet) (likes (session_delete_tweet st tweet)).
Proof.
  intros FK H. simpl in H. apply filter_In in H as [H C]. simpl in C.
  rewrite Z.eqb_refl in C. simpl in C. apply negb_true_iff, in__false in C.
  apply C. apply FK in H as Hu. simpl in Hu.
  apply in_map_iff in Hu as [row [E Hrow]]. apply in_map_iff.
  exists row. split; [assumption |]. apply Tweet_likes_In. now rewrite E.
Qed.

Lemma session_delete_tweet_medias (st : Store) (tweet : Tweet.t) :
  map Media.id (medias (session_delete_tweet st tweet))
  = map Media.id (medias st)
  /\ (forall m, In m (medias st) ->
        Media.tweet_id m = Some (Tweet.id tweet) ->
        In (Media.set_tweet_id m None) (medias (session_delete_tweet st tweet)))
  /\ (forall m, In m (medias st) ->
        Media.tweet_id m <> Some (Tweet.id tweet) ->
        In m (medias (session_delete_tweet st tweet)))
  /\ (forall m', In m' (medias (session_delete_tweet st tweet)) ->
        Media.tweet_id m' <> Some (Tweet.id tweet)).
Proof.
  simpl. repeat split.
  - rewrite map_map. apply map_ext. intros m.
    destruct (Media.tweet_id m) as [i|]; [| reflexivity].
    now destruct (i =? Tweet.id tweet).
  - intros m Hm A. apply in_map_iff. exists m. split; [| assumption].
    now rewrite A, Z.eqb_refl.
  - intros m Hm A. apply in_map_iff. exists m. split; [| assumption].
    destruct (Media.tweet_id m) as [i|]; [| reflexivity].
    destruct (i =? Tweet.id tweet) eqn:E; [| reflexivity].
    apply Z.eqb_eq in E. congruence.
  - intros m' H. apply in_map_iff in H as [m [E Hm]]. subst m'.
    destruct (Media.tweet_id m) as [i|] eqn:A.
    + destruct (i =? Tweet.id tweet) eqn:E.
      * simpl. discriminate.
      * apply Z.eqb_neq in E. rewrite A. congruence.
    + rewrite A. discriminate.
Qed.

(** C4: after a successful [delete_tweet] in a database that respects its
    constraints, the tweet is in nobody's timeline, no like edge refers to
    it, and the media table has the same rows as before, those that were
    attached to the tweet now with no tweet. *)
Theorem delete_tweet_cascade (st st' : Store) (db : Session) (user : User.t)
    (tweet_id : Z) :
  schema st ->
  delete_tweet st db user tweet_id = (st', (true, None)) ->
  (forall w,
      ~ In tweet_id (map Tweet.id (tweets_query st' w))
      /\ forall views, get_timeline st' w = Some views ->
                       ~ In tweet_id (map view_id views))
  /\ (forall u, ~ In (u, tweet_id) (likes st'))
  /\ map Media.id (medias st') = map Media.id (medias st)
  /\ (forall m, In m (medias st) -> Media.tweet_id m = Some tweet_id ->
                In (Media.set_tweet_id m None) (medias st'))
  /\ (forall m', In m' (medias st') -> Media.tweet_id m' <> Some tweet_id).
Proof.
  intros S D. apply delete_tweet_success in D as [tweet [_ [E [_ ->]]]].
  subst tweet_id.
  assert (forall w, ~ In (Tweet.id tweet)
                         (map Tweet.id
                              (tweets_query (session_delete_tweet st tweet) w)))
    as Gone.
  { intros w H. apply in_map_iff in H as [t [E H]].
    apply tweets_query_In in H as [H _].
    apply session_delete_tweet_tweets in H as [_ H]. contradiction. }
  split; [| split].
  - intros w. split; [apply Gone |].
    intros views V. rewrite (get_timeline_ids _ _ _ V). apply Gone.
  - intros u. apply session_delete_tweet_likes.
    intros e He. now apply (fk_likes st S).
  - destruct (session_delete_tweet_medias st tweet) as [A [B [_ C]]]. auto.
Qed.

Lemma demo_schema : schema demo.
Proof.
  constructor; simpl;
    try (repeat constructor; simpl; intuition (discriminate || congruence)).
  - intros t [<- | [<- | [<- | []]]]; simpl; auto.
  - intros m [<- | [<- | []]]; simpl; auto.
  - intros m i [<- | [<- | []]]; simpl; intros [= <-]; auto.
  - intros e [<- | []]; simpl; auto.
  - intros e [<- | []]; simpl; auto.
Qed.

Lemma delete_tweet_cascade_witness :
  let st' := fst (delete_tweet demo Commit alice 1) in
  (forall w,
      ~ In 1 (map Tweet.id (tweets_query st' w))
      /\ forall views, get_timeline st' w = Some views ->
                       ~ In 1 (map view_id views))
  /\ (forall u, ~ In (u, 1) (likes st'))
  /\ map Media.id (medias st') = map Media.id (medias demo)
  /\ (forall m, In m (medias demo) -> Media.tweet_id m = Some 1 ->
                In (Media.set_tweet_id m None) (medias st'))
  /\ (forall m', In m' (medias st') -> Media.tweet_id m' <> Some 1).
Proof.
  apply (delete_tweet_cascade demo _ Commit alice 1).
  - exact demo_schema.
  - reflexivity.
Defined.

(** C5: [delete_tweet] reports "not found" for an id no tweet has and
    "only the owner may delete" for a tweet of somebody else; in both
    cases the database is returned as it was, so the tweet of the second
    case is still found, whatever the unit of work would have done.  The
    route answers 404 [NotFoundError] and 403 [PermissionError]. *)
Theorem delete_tweet_refused (st : Store) (db : Session) (user : User.t)
    (tweet_id : Z) :
  (Tweet_get st tweet_id = None ->
   delete_tweet st db user tweet_id = (st, (false, Some msg_tweet_not_found))
   /\ error_kind msg_tweet_not_found = NotFound
   /\ delete_tweet_route st db user tweet_id
      = (st, error_response "NotFoundError" msg_tweet_not_found 404))
  /\ (forall tweet,
        Tweet_get st tweet_id = Some tweet ->
        Tweet.user_id tweet <> User.id user ->
        delete_tweet st db user tweet_id = (st, (false, Some msg_not_owner))
        /\ error_kind msg_not_owner = Forbidden
        /\ delete_tweet_route st db user tweet_id
           = (st, error_response "PermissionError" msg_not_owner 403)
        /\ Tweet_get (fst (delete_tweet st db user tweet_id)) tweet_id
           = Some tweet).
Proof.
  split.
  - intros G. unfold delete_tweet_route, delete_tweet. rewrite G. auto.
  - intros tweet G O. apply Z.eqb_neq in O.
    unfold delete_tweet_route, delete_tweet. rewrite G, O. simpl. auto.
Qed.

Lemma delete_tweet_refused_witness :
  (Tweet_get demo 9 = None ->
   delete_tweet demo Commit bob 9 = (demo, (false, Some msg_tweet_not_found))
   /\ error_kind msg_tweet_not_found = NotFound
   /\ delete_tweet_route demo Commit bob 9
      = (demo, error_response "NotFoundError" msg_tweet_not_found 404))
  /\ (Tweet_get demo 1 = Some hello ->
      Tweet.user_id hello <> User.id bob ->
      delete_tweet demo Commit bob 1 = (demo, (false, Some msg_not_owner))
      /\ error_kind msg_not_owner = Forbidden
      /\ delete_tweet_route demo Commit bob 1
         = (demo, error_response "PermissionError" msg_not_owner 403)
      /\ Tweet_get (fst (delete_tweet demo Commit bob 1)) 1 = Some hello).
Proof.
  split.
  - exact (proj1 (delete_tweet_refused demo Commit bob 9)).
  - exact (proj2 (delete_tweet_refused demo Commit bob 1) hello).
Defined.

(** ** Following oneself *)

(** C6: [follow_user] on the user's own id fails with the self-follow
    message in every database and whatever the unit of work would do, and
    returns the database as it was; the route answers 400.  [unfollow_user]
    has no such test: on the user's own id it succeeds for a stored user,
    and reports "not found" otherwise. *)
Theorem follow_user_self_rejected (st : Store) (db : Session) (user : User.t) :
  follow_user st db user (User.id user) = (st, (false, Some msg_self_follow))
  /\ error_kind msg_self_follow = SelfReference
  /\ follow_user_route st db user (User.id user)
     = (st, error_response "ValidationError" msg_self_follow 400)
  /\ snd (unfollow_user st Commit user (User.id user))
     = (if in_ (User.id user) (user_ids st)
        then (true, None)
        else (false, Some msg_user_not_found)).
Proof.
  unfold follow_user_route, follow_user. rewrite Z.eqb_refl.
  repeat split. unfold unfollow_user.
  destruct (in_ (User.id user) (user_ids st)) eqn:I.
  - apply in__In, User_get_stored in I as [u [-> _]].
    now destruct (in_following st u user).
  - apply in__false in I. apply find_id_None in I.
    unfold User_get. now rewrite I.
Qed.

Lemma self_follow_examples :
  snd (unfollow_user demo Commit alice (User.id alice)) = (true, None)
  /\ snd (follow_user demo Commit alice (User.id alice))
     = (false, Some msg_self_follow).
Proof.
  split; reflexivity.
Qed.

(** ** Creating a tweet *)

Lemma next_id_bound (ids : list Z) (i : Z) : In i ids -> i < next_id ids.
Proof.
  unfold next_id. induction ids as [|a ids IH]; cbn [fold_right In];
    [contradiction |].
  intros [-> | H]; [lia |]. specialize (IH H). lia.
Qed.

Lemma next_id_fresh (ids : list Z) : ~ In (next_id ids) ids.
Proof.
  intros H. apply next_id_bound in H. lia.
Qed.

Lemma attach_id (ids : list Z) (user : User.t) (tweet : Tweet.t)
    (m : Media.t) :
  Media.id (attach ids user tweet m) = Media.id m
  /\ Media.user_id (attach ids user tweet m) = Media.user_id m
  /\ Media.filename (attach ids user tweet m) = Media.filename m.
Proof.
  unfold attach.
  now destruct (in_ (Media.id m) ids && (Media.user_id m =? User.id user)).
Qed.

Lemma attach_selected (ids : list Z) (user : User.t) (tweet : Tweet.t)
    (m : Media.t) :
  In (Media.id m) ids -> Media.user_id m = User.id user ->
  attach ids user tweet m = Media.set_tweet_id m (Some (Tweet.id tweet)).
Proof.
  intros I O. unfold attach.
  apply in__In in I. apply Z.eqb_eq in O. now rewrite I, O.
Qed.

Lemma attach_skipped (ids : list Z) (user : User.t) (tweet : Tweet.t)
    (m : Media.t) :
  ~ (In (Media.id m) ids /\ Media.user_id m = User.id user) ->
  attach ids user tweet m = m.
Proof.
  intros H. unfold attach.
  destruct (in_ (Media.id m) ids && (Media.user_id m =? User.id user)) eqn:E;
    [| reflexivity].
  apply andb_true_iff in E as [I O]. apply in__In in I. apply Z.eqb_eq in O.
  tauto.
Qed.

Lemma attach_tweet_id (ids : list Z) (user : User.t) (tweet : Tweet.t)
    (m : Media.t) :
  Media.tweet_id m <> Some (Tweet.id tweet) ->
  Media.tweet_id (attach ids user tweet m) = Some (Tweet.id tweet)
  <-> In (Media.id m) ids /\ Media.user_id m = User.id user.
Proof.
  intros H. split.
  - intros A. unfold attach in A.
    destruct (in_ (Media.id m) ids && (Media.user_id m =? User.id user)) eqn:E;
      [| contradiction].
    apply andb_true_iff in E as [I O]. apply in__In in I. apply Z.eqb_eq in O.
    tauto.
  - intros [I O]. now rewrite attach_selected.
Qed.

(** What a committed [create_tweet] leaves: the new row at the end of
    [tweet], and [media] after the loop.  With no id given the loop does
    not run, and [attach] selects no row. *)
Lemma create_tweet_commit (st : Store) (now : Z) (user : User.t)
    (content : string) (media_ids : option (list Z)) :
  let tweet := Tweet.mk (next_id (tweet_ids st)) content now (User.id user) in
  create_tweet st now Commit user content media_ids
  = (mkStore (users st) (tweets st ++ [tweet])
             (map (attach (given_ids media_ids) user tweet) (medias st))
             (followers st) (likes st),
     (true, Some (Tweet.id tweet), None)).
Proof.
  intros tweet. unfold create_tweet. fold (tweet_ids st). fold tweet.
  assert (map (attach [] user tweet) (medias st) = medias st) as Id.
  { rewrite <- (map_id (medias st)) at 2. apply map_ext. intros m.
    apply attach_skipped. simpl. tauto. }
  destruct media_ids as [[|i l]|]; simpl; try reflexivity;
    rewrite Id; now destruct st.
Qed.

Lemma stored_media_not_on_new_tweet (st : Store) (m : Media.t) :
  schema st -> In m (medias st) ->
  Media.tweet_id m <> Some (next_id (tweet_ids st)).
Proof.
  intros S Hm A. apply (next_id_fresh (tweet_ids st)).
  now apply (fk_media_tweet st S m).
Qed.

(** C7: a committed [create_tweet] succeeds whatever ids it is given.  In
    a database that respects its constraints, an id of [media_ids] is on
    the new tweet exactly when a media row with that id is owned by the
    user; every media on the new tweet is such a row; a row that is not
    selected is left as it was. *)
Theorem create_tweet_attaches_own_media (st : Store) (now : Z) (user : User.t)
    (content : string) (media_ids : option (list Z)) :
  schema st ->
  exists st' tweet,
    create_tweet st now Commit user content media_ids
    = (st', (true, Some (Tweet.id tweet), None))
    /\ tweets st' = tweets st ++ [tweet]
    /\ ~ In (Tweet.id tweet) (tweet_ids st)
    /\ (forall i, In i (given_ids media_ids) ->
          (exists m, In m (medias st) /\ Media.id m = i
                     /\ Media.user_id m = User.id user)
          <-> (exists m', In m' (Tweet_medias st' tweet) /\ Media.id m' = i))
    /\ (forall m', In m' (Tweet_medias st' tweet) ->
          In (Media.id m') (given_ids media_ids)
          /\ Media.user_id m' = User.id user)
    /\ (forall m, In m (medias st) ->
          ~ (In (Media.id m) (given_ids media_ids)
             /\ Media.user_id m = User.id user) ->
          In m (medias st')).
Proof.
  intros S. pose proof (create_tweet_commit st now user content media_ids) as C.
  simpl in C.
  set (tweet := Tweet.mk (next_id (tweet_ids st)) content now (User.id user))
    in *.
  eexists. exists tweet. split; [exact C |]. simpl.
  assert (forall m', In m' (Tweet_medias
                              (mkStore (users st) (tweets st ++ [tweet])
                                 (map (attach (given_ids media_ids) user tweet)
                                      (medias st))
                                 (followers st) (likes st)) tweet)
                     <-> exists m, In m (medias st)
                                   /\ m' = attach (given_ids media_ids) user tweet m
                                   /\ In (Media.id m) (given_ids media_ids)
                                   /\ Media.user_id m = User.id user) as T.
  { intros m'. unfold Tweet_medias. simpl. rewrite filter_In, in_map_iff. split.
    - intros [[m [E Hm]] A]. exists m. split; [assumption |].
      split; [now symmetry |].
      apply (attach_tweet_id (given_ids media_ids) user tweet m).
      + now apply stored_media_not_on_new_tweet.
      + rewrite E. destruct (Media.tweet_id m') as [i|]; [| discriminate].
        apply Z.eqb_eq in A. now subst.
    - intros [m [Hm [-> [I O]]]]. split; [now exists m |].
      rewrite attach_selected by assumption. simpl. apply Z.eqb_refl. }
  split; [reflexivity |]. split; [apply next_id_fresh |].
  split; [| split].
  - intros i Hi. split.
    + intros [m [Hm [E O]]].
      exists (attach (given_ids media_ids) user tweet m). split.
      * apply T. exists m. subst i. auto.
      * rewrite <- E. apply attach_id.
    + intros [m' [Hm' E]]. apply T in Hm' as [m [Hm [-> [I O]]]].
      exists m. split; [assumption |]. split; [| assumption].
      rewrite <- E. symmetry. apply attach_id.
  - intros m' Hm'. apply T in Hm' as [m [Hm [-> [I O]]]].
    destruct (attach_id (given_ids media_ids) user tweet m) as [-> [-> _]].
    auto.
  - intros m Hm N. apply in_map_iff. exists m. split; [| assumption].
    now apply attach_skipped.
Qed.

Lemma create_tweet_attaches_own_media_witness :
  exists st' tweet,
    create_tweet demo 200 Commit alice "News" (Some [1; 2; 7])
    = (st', (true, Some (Tweet.id tweet), None))
    /\ tweets st' = tweets demo ++ [tweet]
    /\ ~ In (Tweet.id tweet) (tweet_ids demo)
    /\ (forall i, In i (given_ids (Some [1; 2; 7])) ->
          (exists m, In m (medias demo) /\ Media.id m = i
                     /\ Media.user_id m = User.id alice)
          <-> (exists m', In m' (Tweet_medias st' tweet) /\ Media.id m' = i))
    /\ (forall m', In m' (Tweet_medias st' tweet) ->
          In (Media.id m') (given_ids (Some [1; 2; 7]))
          /\ Media.user_id m' = User.id alice)
    /\ (forall m, In m (medias demo) ->
          ~ (In (Media.id m) (given_ids (Some [1; 2; 7]))
             /\ Media.user_id m = User.id alice) ->
          In m (medias st')).
Proof.
  apply (create_tweet_attaches_own_media demo 200 alice "News"
           (Some [1; 2; 7])).
  exact demo_schema.
Defined.




(** ** Upload, then attach *)

Lemma filter_none {A : Type} (f : A -> bool) (l : list A) :
  (forall x, In x l -> f x = false) -> filter f l = [].
Proof.
  induction l as [|a l IH]; simpl; intros H; [reflexivity |].
  rewrite (H a) by now left. apply IH. intros x Hx. apply H. now right.
Qed.

Lemma get_url_of_filename (m : Media.t) (filename : string) :
  Media.filename m = filename ->
  Media.get_url m = ("/static/uploads/" ++ filename)%string.
Proof.
  intros <-. reflexivity.
Qed.

(** The media of the tweet made from a fresh upload: the uploaded row and
    nothing else. *)
Lemma Tweet_medias_of_upload (st : Store) (t1 : Z) (user : User.t)
    (filename path : string) (tweet t : Tweet.t) :
  schema st ->
  Tweet.id tweet = next_id (tweet_ids st) ->
  Tweet.id t = Tweet.id tweet ->
  let media := Media.mk (next_id (media_ids_of st)) filename path t1
                        (User.id user) None in
  filter (fun m => match Media.tweet_id m with
                   | Some i => i =? Tweet.id t
                   | None => false
                   end)
         (map (attach [Media.id media] user tweet) (medias st ++ [media]))
  = [Media.set_tweet_id media (Some (Tweet.id tweet))].
Proof.
  intros S Et E media. rewrite map_app, filter_app, E.
  rewrite filter_none.
  - simpl. unfold attach. simpl. rewrite !Z.eqb_refl. simpl.
    now rewrite Z.eqb_refl.
  - intros m' Hm'. apply in_map_iff in Hm' as [m [<- Hm]].
    destruct (Media.tweet_id (attach [Media.id media] user tweet m)) as [i|] eqn:A;
      [| reflexivity].
    apply Z.eqb_neq. intros ->.
    apply attach_tweet_id in A as [[I | []] _].
    + apply (next_id_fresh (media_ids_of st)).
      change (next_id (media_ids_of st)) with (Media.id media). rewrite I.
      now apply in_map.
    + rewrite Et. now apply stored_media_not_on_new_tweet.
Qed.

(** C10: in a database that respects its constraints, a stored user
    uploads a file and then creates a tweet with the returned media id.
    Both calls succeed, the tweet is in the user's timeline, and its
    attachment list is the single URL "/static/uploads/" followed by the
    stored filename, as [get_url] gives for any media of that filename. *)
Theorem uploaded_media_is_the_attachment (st : Store) (t1 t2 : Z)
    (user : User.t) (filename path content : string) :
  schema st ->
  In (User.id user) (user_ids st) ->
  exists st1 media_id st2 tweet_id views,
    upload_media st t1 Commit user filename path
    = (st1, (true, Some media_id, None))
    /\ create_tweet st1 t2 Commit user content (Some [media_id])
       = (st2, (true, Some tweet_id, None))
    /\ get_timeline st2 user = Some views
    /\ (exists v, In v views /\ view_id v = tweet_id)
    /\ (forall v, In v views -> view_id v = tweet_id ->
          view_attachments v = [("/static/uploads/" ++ filename)%string])
    /\ (forall m, Media.filename m = filename ->
          Media.get_url m = ("/static/uploads/" ++ filename)%string).
Proof.
  intros S Hu.
  set (media := Media.mk (next_id (media_ids_of st)) filename path t1
                         (User.id user) None).
  set (st1 := set_medias st (medias st ++ [media])).
  pose proof (create_tweet_commit st1 t2 user content (Some [Media.id media]))
    as C.
  simpl in C.
  set (tweet := Tweet.mk (next_id (tweet_ids st1)) content t2 (User.id user))
    in *.
  set (st2 := mkStore (users st1) (tweets st1 ++ [tweet])
                      (map (attach [Media.id media] user tweet) (medias st1))
                      (followers st1) (likes st1)) in *.
  destruct (get_timeline_total st2 user Hu) as [views V].
  exists st1, (Media.id media), st2, (Tweet.id tweet), views.
  split; [reflexivity |]. split; [exact C |]. split; [exact V |].
  pose proof (collect_In _ _ _ V) as Hin.
  assert (forall t v, tweet_view st2 t = Some v -> Tweet.id t = Tweet.id tweet ->
                      view_attachments v
                      = [("/static/uploads/" ++ filename)%string]) as Att.
  { intros t v Vt E. unfold tweet_view in Vt.
    destruct (Tweet_user st2 t); [| discriminate]. injection Vt as <-.
    cbn [view_attachments].
    pose proof (Tweet_medias_of_upload st t1 user filename path tweet t S
                  eq_refl E) as X.
    apply (f_equal (map Media.get_url)) in X. exact X. }
  split; [| split].
  - assert (In tweet (tweets_query st2 user)) as Iq.
    { apply tweets_query_In. split; [| now left].
      simpl. apply in_or_app. right. now left. }
    destruct (tweet_view_total st2 tweet Hu) as [v Vt].
    exists v. split.
    + apply Hin. now exists tweet.
    + now apply tweet_view_id in Vt.
  - intros v Iv E. apply Hin in Iv as [t [_ Vt]].
    apply (Att t v Vt). rewrite <- E. symmetry. now apply tweet_view_id in Vt.
  - intros m Hm. now apply get_url_of_filename.
Qed.

Lemma uploaded_media_is_the_attachment_witness :
  exists st1 media_id st2 tweet_id views,
    upload_media demo 150 Commit alice "photo.png" "static/uploads/photo.png"
    = (st1, (true, Some media_id, None))
    /\ create_tweet st1 160 Commit alice "Look" (Some [media_id])
       = (st2, (true, Some tweet_id, None))
    /\ get_timeline st2 alice = Some views
    /\ (exists v, In v views /\ view_id v = tweet_id)
    /\ (forall v, In v views -> view_id v = tweet_id ->
          view_attachments v = ["/static/uploads/photo.png"])
    /\ (forall m, Media.filename m = "photo.png" ->
          Media.get_url m = "/static/uploads/photo.png").
Proof.
  apply (uploaded_media_is_the_attachment demo 150 160 alice "photo.png"
           "static/uploads/photo.png" "Look").
  - exact demo_schema.
  - simpl. auto.
Defined.

(** ** Validation of the content *)

(** C8, as the specification has it, fails: [create_tweet] does not look
    at the content.  Given the empty string it stores a tweet with empty
    content and reports success. *)
Lemma create_tweet_accepts_empty_content :
  create_tweet demo 200 Commit alice "" None
  = (set_tweets demo (tweets demo ++ [Tweet.mk 4 "" 200 1]),
     (true, Some 4, None))
  /\ In (Tweet.mk 4 "" 200 1)
        (tweets (fst (create_tweet demo 200 Commit alice "" None))).
Proof.
  split; [reflexivity |]. simpl. auto 6.
Qed.

(** C8, as the code has it: the content is validated by
    [create_tweet_route].  For an empty text and for a text of more than
    280 characters, counted as Python's [len] counts them, the route
    answers 400 [ValidationError] and returns the database as it was,
    whatever [tweet_media_ids] holds and whatever the unit of work would
    have done; [create_tweet] is not reached.  Every other text passes:
    with no media ids and a unit of work that commits the route answers
    201 and the tweet is stored.  The service itself stores any text when
    its unit of work commits. *)
Theorem create_tweet_route_validates_content (st : Store) (now : Z)
    (db : Session) (user : User.t) (text : string)
    (tweet_media_ids : option Json) (media_ids : option (list Z)) :
  (text = "" \/ 280 < Z.of_nat (len text) ->
   exists msg,
     create_tweet_route st now db user (Some (JStr text)) tweet_media_ids
     = (st, error_response "ValidationError" msg 400))
  /\ (text <> "" -> Z.of_nat (len text) <= 280 ->
      exists st' tweet_id,
        create_tweet_route st now Commit user (Some (JStr text)) None
        = (st', mkResponse 201 true (Some tweet_id) None None)
        /\ In (Tweet.mk tweet_id text now (User.id user)) (tweets st'))
  /\ (exists st' tweet_id,
        create_tweet st now Commit user text media_ids
        = (st', (true, Some tweet_id, None))
        /\ In (Tweet.mk tweet_id text now (User.id user)) (tweets st')).
Proof.
  split; [| split].
  - intros H. unfold create_tweet_route.
    destruct (text =? "")%string eqn:E; [eauto |].
    destruct H as [-> | L]; [discriminate |].
    apply Z.gtb_lt in L. rewrite L. eauto.
  - intros Ne L. unfold create_tweet_route.
    apply String.eqb_neq in Ne. rewrite Ne.
    replace (Z.of_nat (len text) >? 280) with false
      by (symmetry; rewrite Z.gtb_ltb; apply Z.ltb_ge; exact L).
    cbn [collect]. rewrite create_tweet_commit. do 2 eexists.
    split; [reflexivity |]. simpl. apply in_or_app. right. now left.
  - rewrite create_tweet_commit. do 2 eexists. split; [reflexivity |].
    simpl. apply in_or_app. right. now left.
Qed.

Lemma create_tweet_route_validates_content_witness :
  (exists msg,
      create_tweet_route demo 200 Commit alice (Some (JStr long_text)) None
      = (demo, error_response "ValidationError" msg 400))
  /\ (exists st' tweet_id,
        create_tweet_route demo 200 Commit alice (Some (JStr cyrillic_text))
          None
        = (st', mkResponse 201 true (Some tweet_id) None None)
        /\ In (Tweet.mk tweet_id cyrillic_text 200 (User.id alice))
              (tweets st'))
  /\ (exists st' tweet_id,
        create_tweet demo 200 Commit alice long_text None
        = (st', (true, Some tweet_id, None))
        /\ In (Tweet.mk tweet_id long_text 200 (User.id alice)) (tweets st')).
Proof.
  split; [| split].
  - apply (proj1 (create_tweet_route_validates_content demo 200 Commit alice
                    long_text None None)).
    right. vm_compute. reflexivity.
  - apply (proj1 (proj2 (create_tweet_route_validates_content demo 200 Commit
                           alice cyrillic_text None None))).
    + discriminate.
    + vm_compute. discriminate.
  - apply (proj2 (proj2 (create_tweet_route_validates_content demo 200 Commit
                           alice long_text None None))).
Defined.

(** [len] counts characters, [String.length] bytes. *)
Lemma len_examples :
  len long_text = 281%nat
  /\ len cyrillic_text = 141%nat
  /\ String.length cyrillic_text = 282%nat
  /\ len "Hello world!" = 12%nat
  /\ len "" = 0%nat.
Proof.
  repeat split; vm_compute; reflexivity.
Qed.

Lemma create_tweet_route_examples :
  snd (create_tweet_route demo 200 Commit alice (Some (JStr "Hello world!"))
         None)
  = mkResponse 201 true (Some 4) None None
  /\ snd (create_tweet_route demo 200 Commit alice None None)
     = error_response "ValidationError" msg_tweet_data_required 400
  /\ snd (create_tweet_route demo 200 Commit alice (Some (JStr long_text)) None)
     = error_response "ValidationError" msg_tweet_too_long 400
  /\ snd (create_tweet_route demo 200 Commit alice (Some (JStr "Hi"))
            (Some (JList [JInt 1; JStr "2"])))
     = error_response "ValidationError" msg_media_ids_type 400.
Proof.
  repeat split; vm_compute; reflexivity.
Qed.

(** ** The constraints are kept

    Every service, called for a stored user, takes a database that
    respects the constraints of models.py to one that does, whether its
    unit of work commits or not. *)

Lemma NoDup_snoc {A : Type} (l : list A) (x : A) :
  NoDup l -> ~ In x l -> NoDup (l ++ [x]).
Proof.
  intros ND H. apply (Permutation_NoDup (l := x :: l)).
  - apply Permutation_cons_append.
  - now constructor.
Qed.

Lemma NoDup_map_filter {A : Type} (key : A -> Z) (p : A -> bool) (l : list A) :
  NoDup (map key l) -> NoDup (map key (filter p l)).
Proof.
  induction l as [|a l IH]; simpl; intros ND; [constructor |].
  inversion ND as [|? ? Hn ND']; subst.
  destruct (p a); simpl; [| auto].
  constructor; [| auto].
  intros H. apply Hn. apply in_map_iff in H as [x [E Hx]].
  apply filter_In in Hx as [Hx _]. rewrite <- E. now apply in_map.
Qed.

Lemma map_id_attach (ids : list Z) (user : User.t) (tweet : Tweet.t)
    (l : list Media.t) :
  map Media.id (map (attach ids user tweet) l) = map Media.id l.
Proof.
  rewrite map_map. apply map_ext. intros m. apply attach_id.
Qed.

Lemma schema_empty : schema empty_store.
Proof.
  constructor; simpl; try constructor; contradiction.
Qed.

Lemma create_tweet_schema (st : Store) (now : Z) (db : Session)
    (user : User.t) (content : string) (media_ids : option (list Z)) :
  schema st -> In (User.id user) (user_ids st) ->
  schema (fst (create_tweet st now db user content media_ids)).
Proof.
  intros S Hu. destruct db as [|e]; [| exact S].
  rewrite create_tweet_commit. destruct S. constructor; simpl; auto.
  - unfold tweet_ids. simpl. rewrite map_app. simpl.
    apply NoDup_snoc; [assumption | apply next_id_fresh].
  - unfold media_ids_of. simpl. now rewrite map_id_attach.
  - intros t Ht. apply in_app_or in Ht as [Ht | [<- | []]]; auto.
  - intros m' Hm'. apply in_map_iff in Hm' as [m [<- Hm]].
    rewrite (proj1 (proj2 (attach_id _ _ _ _))). auto.
  - intros m' i Hm' A. apply in_map_iff in Hm' as [m [<- Hm]].
    unfold tweet_ids. simpl. rewrite map_app. apply in_or_app.
    unfold attach in A.
    destruct (in_ (Media.id m) (given_ids media_ids)
              && (Media.user_id m =? User.id user)).
    + right. simpl in A. injection A as <-. now left.
    + left. eauto.
  - intros e He. destruct (fk_likes0 e He) as [H1 H2]. split; [assumption |].
    unfold tweet_ids. simpl. rewrite map_app. apply in_or_app. now left.
Qed.

Lemma upload_media_schema (st : Store) (now : Z) (db : Session)
    (user : User.t) (filename path : string) :
  schema st -> In (User.id user) (user_ids st) ->
  schema (fst (upload_media st now db user filename path)).
Proof.
  intros S Hu. destruct db as [|e]; [| exact S].
  destruct S. constructor; simpl; auto.
  - unfold media_ids_of. simpl. rewrite map_app. simpl.
    apply NoDup_snoc; [assumption | apply next_id_fresh].
  - intros m Hm. apply in_app_or in Hm as [Hm | [<- | []]]; auto.
  - intros m i Hm A. apply in_app_or in Hm as [Hm | [<- | []]]; eauto.
    discriminate.
Qed.

Lemma session_delete_tweet_schema (st : Store) (tweet : Tweet.t) :
  schema st -> schema (session_delete_tweet st tweet).
Proof.
  intros S.
  assert (forall i, In i (tweet_ids st) -> i <> Tweet.id tweet ->
                    In i (tweet_ids (session_delete_tweet st tweet))) as Keep.
  { intros i Hi Ne. apply in_map_iff in Hi as [t [<- Ht]].
    apply in_map. simpl. apply filter_In. split; [assumption |].
    now apply negb_true_iff, Z.eqb_neq. }
  pose proof (session_delete_tweet_likes st tweet) as Gone.
  pose proof (session_delete_tweet_medias st tweet) as [Ids [_ [_ Det]]].
  destruct S. constructor; auto.
  - now apply NoDup_map_filter.
  - unfold media_ids_of. now rewrite Ids.
  - now apply NoDup_filter.
  - intros t Ht. apply session_delete_tweet_tweets in Ht as [Ht _]. auto.
  - intros m' Hm'. simpl in Hm'. apply in_map_iff in Hm' as [m [<- Hm]].
    destruct (Media.tweet_id m) as [i|]; [| auto].
    destruct (i =? Tweet.id tweet); simpl; auto.
  - intros m' i Hm' A. apply Keep.
    + simpl in Hm'. apply in_map_iff in Hm' as [m [<- Hm]].
      destruct (Media.tweet_id m) as [j|] eqn:B.
      * destruct (j =? Tweet.id tweet); [discriminate |].
        rewrite B in A. injection A as <-. eauto.
      * rewrite B in A. discriminate.
    + intros ->. now apply (Det m' Hm').
  - intros [u i] He. assert (In (u, i) (likes st)) as He'.
    { simpl in He. now apply filter_In in He. }
    destruct (fk_likes0 _ He') as [H1 H2]. split; [assumption |].
    apply Keep; [assumption |]. simpl. intros ->.
    apply (Gone u); [| assumption].
    intros e' He''. now apply fk_likes0.
Qed.

Lemma delete_tweet_schema (st : Store) (db : Session) (user : User.t)
    (tweet_id : Z) :
  schema st -> schema (fst (delete_tweet st db user tweet_id)).
Proof.
  intros S. unfold delete_tweet.
  destruct (Tweet_get st tweet_id) as [t|]; [| exact S].
  destruct (negb (Tweet.user_id t =? User.id user)); [exact S |].
  destruct db; [| exact S]. now apply session_delete_tweet_schema.
Qed.

Lemma like_tweet_schema (st : Store) (db : Session) (user : User.t)
    (tweet_id : Z) :
  schema st -> In (User.id user) (user_ids st) ->
  schema (fst (like_tweet st db user tweet_id)).
Proof.
  intros S Hu. unfold like_tweet, Tweet_get.
  destruct (find _ (tweets st)) as [t|] eqn:G; [| exact S].
  apply find_id_sound in G as [Ht _].
  destruct (existing_like st t user) eqn:L; [exact S |].
  destruct db; [| exact S]. apply existing_like_None in L.
  destruct S. constructor; simpl; auto.
  - apply NoDup_snoc; [assumption | tauto].
  - intros e He. apply in_app_or in He as [He | [<- | []]]; auto.
    simpl. split; [assumption | now apply in_map].
Qed.

Lemma unlike_tweet_schema (st : Store) (db : Session) (user : User.t)
    (tweet_id : Z) :
  schema st -> schema (fst (unlike_tweet st db user tweet_id)).
Proof.
  intros S. unfold unlike_tweet.
  destruct (Tweet_get st tweet_id) as [t|]; [| exact S].
  destruct (existing_like st t user); [| exact S].
  destruct db; [| exact S].
  destruct S. constructor; simpl; auto.
  - now apply NoDup_filter.
  - intros e He. apply filter_In in He as [He _]. auto.
Qed.

Lemma follow_user_schema (st : Store) (db : Session) (user : User.t)
    (user_id_to_follow : Z) :
  schema st -> In (User.id user) (user_ids st) ->
  schema (fst (follow_user st db user user_id_to_follow)).
Proof.
  intros S Hu. unfold follow_user.
  destruct (User.id user =? user_id_to_follow); [exact S |].
  unfold User_get. destruct (find _ (users st)) as [v|] eqn:G; [| exact S].
  apply find_id_sound in G as [Hv _].
  destruct (in_following st v user) eqn:F; [exact S |].
  destruct db; [| exact S].
  assert (In (User.id v) (user_ids st)) as Iv by now apply in_map.
  destruct S. constructor; simpl; auto.
  - apply NoDup_snoc; [assumption |]. intros X.
    assert (in_following st v user = true) as Y; [| congruence].
    now apply in_following_true.
  - intros e He. apply in_app_or in He as [He | [<- | []]]; auto.
Qed.

Lemma unfollow_user_schema (st : Store) (db : Session) (user : User.t)
    (user_id_to_unfollow : Z) :
  schema st -> schema (fst (unfollow_user st db user user_id_to_unfollow)).
Proof.
  intros S. unfold unfollow_user.
  destruct (User_get st user_id_to_unfollow) as [v|]; [| exact S].
  destruct (negb (in_following st v user)); [exact S |].
  destruct db; [| exact S].
  destruct S. constructor; simpl; auto.
  - now apply NoDup_filter.
  - intros e He. apply filter_In in He as [He _]. auto.
Qed.

(** * Further properties of the services *)

(** ** Round trips *)

Lemma set_likes_same (st : Store) : set_likes st (likes st) = st.
Proof. now destruct st. Qed.

Lemma set_followers_same (st : Store) : set_followers st (followers st) = st.
Proof. now destruct st. Qed.

Lemma filter_out_snoc (a b : Z) (l : list (Z * Z)) :
  ~ In (a, b) l ->
  filter (fun e => negb ((fst e =? a) && (snd e =? b))) (l ++ [(a, b)]) = l.
Proof.
  intros H. rewrite filter_app. simpl. rewrite !Z.eqb_refl. simpl.
  rewrite app_nil_r. induction l as [|[x y] l IH]; simpl; [reflexivity |].
  simpl in H. destruct ((x =? a) && (y =? b)) eqn:E.
  - apply andb_true_iff in E as [Ex Ey]. apply Z.eqb_eq in Ex, Ey. subst.
    tauto.
  - simpl. f_equal. apply IH. tauto.
Qed.

(** X2: a stored user who likes a stored tweet not liked before and then
    unlikes it gets the database back as it was, row for row; both calls
    succeed. *)
Theorem like_then_unlike_restores (st : Store) (user : User.t)
    (tweet : Tweet.t) :
  In (User.id user) (user_ids st) ->
  In tweet (tweets st) ->
  ~ In (User.id user, Tweet.id tweet) (likes st) ->
  exists st1,
    like_tweet st Commit user (Tweet.id tweet) = (st1, (true, None))
    /\ In (User.id user, Tweet.id tweet) (likes st1)
    /\ unlike_tweet st1 Commit user (Tweet.id tweet) = (st, (true, None)).
Proof.
  intros Hu Ht Hn. destruct (Tweet_get_stored st tweet Ht) as [t [G [_ E]]].
  unfold like_tweet. rewrite G.
  replace (existing_like st t user) with (@None User.t)
    by (symmetry; apply existing_like_None; rewrite E; tauto).
  eexists. split; [reflexivity |]. split.
  - simpl. apply in_or_app. right. left. now rewrite E.
  - unfold unlike_tweet.
    change (Tweet_get (set_likes st (likes st ++ [(User.id user, Tweet.id t)]))
                      (Tweet.id tweet))
      with (Tweet_get st (Tweet.id tweet)).
    rewrite G.
    destruct (proj2 (existing_like_Some
                       (set_likes st (likes st ++ [(User.id user, Tweet.id t)]))
                       t user)) as [u' ->].
    { split; [exact Hu |]. simpl. apply in_or_app. right. now left. }
    simpl. rewrite filter_out_snoc by (rewrite E; assumption).
    now destruct st.
Qed.

Lemma like_then_unlike_restores_witness :
  exists st1,
    like_tweet demo Commit alice (Tweet.id hi) = (st1, (true, None))
    /\ In (User.id alice, Tweet.id hi) (likes st1)
    /\ unlike_tweet st1 Commit alice (Tweet.id hi) = (demo, (true, None)).
Proof.
  apply (like_then_unlike_restores demo alice hi); simpl; auto.
  intros [H | []]. discriminate.
Defined.

(** X3: a user who follows a stored user not followed before and then
    unfollows gets the database back as it was; both calls succeed. *)
Theorem follow_then_unfollow_restores (st : Store) (user : User.t)
    (target : Z) :
  In target (user_ids st) ->
  target <> User.id user ->
  ~ In (User.id user, target) (followers st) ->
  exists st1,
    follow_user st Commit user target = (st1, (true, None))
    /\ In (User.id user, target) (followers st1)
    /\ unfollow_user st1 Commit user target = (st, (true, None)).
Proof.
  intros Ht Hne Hn. destruct (User_get_stored st target Ht) as [v [G [Hv E]]].
  unfold follow_user.
  replace (User.id user =? target) with false
    by (symmetry; apply Z.eqb_neq; congruence).
  rewrite G.
  replace (in_following st v user) with false.
  2:{ symmetry. apply not_true_is_false. intros F.
      apply in_following_true in F as [_ F]. rewrite E in F. contradiction. }
  eexists. split; [reflexivity |]. split.
  - simpl. apply in_or_app. right. left. now rewrite E.
  - unfold unfollow_user.
    change (User_get (set_followers st
                        (followers st ++ [(User.id user, User.id v)])) target)
      with (User_get st target).
    rewrite G.
    replace (in_following
               (set_followers st (followers st ++ [(User.id user, User.id v)]))
               v user) with true.
    2:{ symmetry. apply in_following_true. split.
        - rewrite E. exact Ht.
        - simpl. apply in_or_app. right. now left. }
    simpl. rewrite filter_out_snoc by (rewrite E; assumption).
    now destruct st.
Qed.

Lemma follow_then_unfollow_restores_witness :
  exists st1,
    follow_user demo Commit alice 3 = (st1, (true, None))
    /\ In (User.id alice, 3) (followers st1)
    /\ unfollow_user st1 Commit alice 3 = (demo, (true, None)).
Proof.
  apply (follow_then_unfollow_restores demo alice 3); simpl; auto.
  - discriminate.
  - intros [H | []]. discriminate.
Defined.

(** ** What a like and a follow change in the timelines *)

Lemma like_tweet_commit (st : Store) (user : User.t) (tweet : Tweet.t) :
  In tweet (tweets st) ->
  exists st1,
    like_tweet st Commit user (Tweet.id tweet) = (st1, (true, None))
    /\ users st1 = users st /\ tweets st1 = tweets st
    /\ In (User.id user, Tweet.id tweet) (likes st1).
Proof.
  intros Ht. destruct (Tweet_get_stored st tweet Ht) as [t [G [_ E]]].
  unfold like_tweet. rewrite G.
  destruct (existing_like st t user) as [u|] eqn:L.
  - exists st. repeat split.
    assert (exists u', existing_like st t user = Some u') as X by eauto.
    apply existing_like_Some in X as [_ X]. now rewrite <- E.
  - eexists. split; [reflexivity |]. repeat split. simpl.
    apply in_or_app. right. left. now rewrite E.
Qed.

Lemma view_of_timeline (st : Store) (w : User.t) (views : list TweetView)
    (v : TweetView) :
  get_timeline st w = Some views -> In v views ->
  exists t, In t (tweets_query st w) /\ tweet_view st t = Some v
            /\ view_id v = Tweet.id t
            /\ view_likes v
               = map (fun u => (User.id u, User.name u)) (Tweet_likes st t).
Proof.
  intros V Iv. apply (collect_In _ _ _ V) in Iv as [t [It Vt]].
  exists t. split; [assumption |]. split; [assumption |].
  unfold tweet_view in Vt. destruct (Tweet_user st t); [| discriminate].
  now injection Vt as <-.
Qed.

(** X4: after a committed [like_tweet] on a stored tweet by a row of the
    user table, every view of that tweet, in whoever's timeline, lists
    the user with id and name among the likes. *)
Theorem like_tweet_shows_in_timelines (st : Store) (user : User.t)
    (tweet : Tweet.t) :
  In user (users st) ->
  In tweet (tweets st) ->
  exists st1,
    like_tweet st Commit user (Tweet.id tweet) = (st1, (true, None))
    /\ forall w views v,
         get_timeline st1 w = Some views -> In v views ->
         view_id v = Tweet.id tweet ->
         In (User.id user, User.name user) (view_likes v).
Proof.
  intros Hu Ht. destruct (like_tweet_commit st user tweet Ht)
    as [st1 [L [U [_ E]]]].
  exists st1. split; [assumption |]. intros w views v V Iv Id.
  destruct (view_of_timeline st1 w views v V Iv) as [t [_ [_ [Idt ->]]]].
  apply in_map_iff. exists user. split; [reflexivity |].
  apply Tweet_likes_In. rewrite U. split; [assumption |]. congruence.
Qed.

Lemma like_tweet_shows_in_timelines_witness :
  exists st1,
    like_tweet demo Commit alice (Tweet.id hi) = (st1, (true, None))
    /\ forall w views v,
         get_timeline st1 w = Some views -> In v views ->
         view_id v = Tweet.id hi ->
         In (User.id alice, User.name alice) (view_likes v).
Proof.
  apply (like_tweet_shows_in_timelines demo alice hi); simpl; auto.
Defined.

(** X5: a committed [unlike_tweet] by a stored user on a stored tweet
    succeeds, leaves no like edge of the user on the tweet and keeps every
    other edge; no view of the tweet lists the user any more. *)
Theorem unlike_tweet_removes_like (st : Store) (user : User.t)
    (tweet : Tweet.t) :
  In (User.id user) (user_ids st) ->
  In tweet (tweets st) ->
  exists st1,
    unlike_tweet st Commit user (Tweet.id tweet) = (st1, (true, None))
    /\ ~ In (User.id user, Tweet.id tweet) (likes st1)
    /\ (forall e, e <> (User.id user, Tweet.id tweet) ->
                  (In e (likes st1) <-> In e (likes st)))
    /\ forall w views v name,
         get_timeline st1 w = Some views -> In v views ->
         view_id v = Tweet.id tweet ->
         ~ In (User.id user, name) (view_likes v).
Proof.
  intros Hu Ht. destruct (Tweet_get_stored st tweet Ht) as [t [G [_ E]]].
  assert (exists st1,
             unlike_tweet st Commit user (Tweet.id tweet) = (st1, (true, None))
             /\ users st1 = users st
             /\ ~ In (User.id user, Tweet.id tweet) (likes st1)
             /\ (forall e, e <> (User.id user, Tweet.id tweet) ->
                           (In e (likes st1) <-> In e (likes st)))) as X.
  { unfold unlike_tweet. rewrite G.
    destruct (existing_like st t user) as [u|] eqn:L.
    - eexists. split; [reflexivity |]. split; [reflexivity |]. simpl. split.
      + rewrite filter_In, E. simpl. rewrite !Z.eqb_refl. simpl.
        intros [_ F]. discriminate.
      + intros [a b] Ne. rewrite filter_In. simpl. split; [tauto |].
        intros H. split; [assumption |]. apply negb_true_iff.
        destruct ((a =? User.id user) && (b =? Tweet.id t)) eqn:F;
          [| reflexivity].
        apply andb_true_iff in F as [Fa Fb]. apply Z.eqb_eq in Fa, Fb.
        subst. rewrite E in Ne. congruence.
    - exists st. split; [reflexivity |]. split; [reflexivity |].
      apply existing_like_None in L. rewrite E in L. split; tauto. }
  destruct X as [st1 [R [U [Gone Kept]]]]. exists st1.
  split; [assumption |]. split; [assumption |]. split; [assumption |].
  intros w views v name V Iv Id H.
  destruct (view_of_timeline st1 w views v V Iv) as [t' [_ [_ [Idt Lk]]]].
  rewrite Lk in H. apply in_map_iff in H as [u [Eu Hu']].
  apply Tweet_likes_In in Hu' as [_ Hu']. injection Eu as Eu _.
  apply Gone. congruence.
Qed.

Lemma unlike_tweet_removes_like_witness :
  exists st1,
    unlike_tweet demo Commit bob (Tweet.id hello) = (st1, (true, None))
    /\ ~ In (User.id bob, Tweet.id hello) (likes st1)
    /\ (forall e, e <> (User.id bob, Tweet.id hello) ->
                  (In e (likes st1) <-> In e (likes demo)))
    /\ forall w views v name,
         get_timeline st1 w = Some views -> In v views ->
         view_id v = Tweet.id hello ->
         ~ In (User.id bob, name) (view_likes v).
Proof.
  apply (unlike_tweet_removes_like demo bob hello); simpl; auto.
Defined.

(** X6: after a committed [follow_user] on a stored user other than
    oneself, the user's timeline query holds every tweet of the followed
    user, and still every tweet it held before. *)
Theorem follow_user_opens_timeline (st : Store) (user : User.t) (target : Z) :
  In target (user_ids st) ->
  target <> User.id user ->
  exists st1,
    follow_user st Commit user target = (st1, (true, None))
    /\ tweets st1 = tweets st
    /\ (forall t, In t (tweets st) -> Tweet.user_id t = target ->
                  In t (tweets_query st1 user))
    /\ (forall t, In t (tweets_query st user) -> In t (tweets_query st1 user)).
Proof.
  intros Ht Hne. destruct (User_get_stored st target Ht) as [v [G [Hv E]]].
  assert (exists st1,
             follow_user st Commit user target = (st1, (true, None))
             /\ users st1 = users st /\ tweets st1 = tweets st
             /\ In (User.id user, target) (followers st1)
             /\ (forall e, In e (followers st) -> In e (followers st1))) as X.
  { unfold follow_user.
    replace (User.id user =? target) with false
      by (symmetry; apply Z.eqb_neq; congruence).
    rewrite G. destruct (in_following st v user) eqn:F.
    - exists st. repeat split; auto.
      apply in_following_true in F as [_ F]. now rewrite <- E.
    - eexists. split; [reflexivity |]. simpl. repeat split.
      + apply in_or_app. right. left. now rewrite E.
      + intros e He. apply in_or_app. now left. }
  destruct X as [st1 [R [U [T [New Old]]]]]. exists st1.
  split; [assumption |]. split; [assumption |]. split.
  - intros t It Ot. apply tweets_query_In. rewrite T. split; [assumption |].
    right. apply followed_ids_In. unfold user_ids. rewrite U, Ot. auto.
  - intros t It. apply tweets_query_In in It as [It [O | F]];
      apply tweets_query_In; rewrite T; (split; [assumption |]); [now left |].
    right. apply followed_ids_In in F as [F1 F2]. apply followed_ids_In.
    unfold user_ids in *. rewrite U. auto.
Qed.

Lemma follow_user_opens_timeline_witness :
  exists st1,
    follow_user demo Commit alice 3 = (st1, (true, None))
    /\ tweets st1 = tweets demo
    /\ (forall t, In t (tweets demo) -> Tweet.user_id t = 3 ->
                  In t (tweets_query st1 alice))
    /\ (forall t, In t (tweets_query demo alice) ->
                  In t (tweets_query st1 alice)).
Proof.
  apply (follow_user_opens_timeline demo alice 3); simpl; auto.
  discriminate.
Defined.

(** X7: after a committed [unfollow_user] on a stored user other than
    oneself, the user's timeline query holds no tweet of that user, and
    exactly the other tweets it held before. *)
Theorem unfollow_user_closes_timeline (st : Store) (user : User.t)
    (target : Z) :
  In target (user_ids st) ->
  target <> User.id user ->
  exists st1,
    unfollow_user st Commit user target = (st1, (true, None))
    /\ forall t, In t (tweets_query st1 user)
                 <-> In t (tweets_query st user) /\ Tweet.user_id t <> target.
Proof.
  intros Ht Hne. destruct (User_get_stored st target Ht) as [v [G [Hv E]]].
  assert (exists st1,
             unfollow_user st Commit user target = (st1, (true, None))
             /\ users st1 = users st /\ tweets st1 = tweets st
             /\ forall i, In (User.id user, i) (followers st1)
                          <-> In (User.id user, i) (followers st)
                              /\ i <> target) as X.
  { unfold unfollow_user. rewrite G.
    destruct (in_following st v user) eqn:F; simpl.
    - eexists. split; [reflexivity |]. simpl. repeat split.
      + now apply filter_In in H.
      + apply filter_In in H as [_ H]. simpl in H. rewrite Z.eqb_refl in H.
        simpl in H. apply negb_true_iff, Z.eqb_neq in H. congruence.
      + intros [H Ne]. apply filter_In. split; [assumption |]. simpl.
        rewrite Z.eqb_refl. simpl. apply negb_true_iff, Z.eqb_neq. congruence.
    - exists st. repeat split; try tauto.
      intros ->. assert (in_following st v user = true) as Y; [| congruence].
      apply in_following_true. rewrite E. split; assumption. }
  destruct X as [st1 [R [U [T Fw]]]]. exists st1. split; [assumption |].
  intros t. rewrite !tweets_query_In, !followed_ids_In, T. unfold user_ids.
  rewrite U, Fw. split.
  - intros [It [O | [F1 [F2 F3]]]]; (split; [tauto |]); congruence.
  - intros [[It [O | [F1 F2]]] Ne]; tauto.
Qed.

Lemma unfollow_user_closes_timeline_witness :
  exists st1,
    unfollow_user demo Commit alice 2 = (st1, (true, None))
    /\ forall t, In t (tweets_query st1 alice)
                 <-> In t (tweets_query demo alice) /\ Tweet.user_id t <> 2.
Proof.
  apply (unfollow_user_closes_timeline demo alice 2); simpl; auto.
  discriminate.
Defined.

(** ** Missing rows *)

(** X8: liking or unliking an id no tweet has, and following or
    unfollowing an id no user has, changes nothing whatever the unit of
    work would do, and the routes answer 404 [NotFoundError] with the
    service's message. *)
Theorem missing_row_not_found (st : Store) (db : Session) (user : User.t)
    (tweet_id user_id : Z) :
  ~ In tweet_id (tweet_ids st) ->
  ~ In user_id (user_ids st) ->
  User.id user <> user_id ->
  like_tweet_route st db user tweet_id
  = (st, error_response "NotFoundError" msg_tweet_not_found 404)
  /\ unlike_tweet_route st db user tweet_id
     = (st, error_response "NotFoundError" msg_tweet_not_found 404)
  /\ follow_user_route st db user user_id
     = (st, error_response "NotFoundError" msg_user_not_found 404)
  /\ unfollow_user_route st db user user_id
     = (st, error_response "NotFoundError" msg_user_not_found 404).
Proof.
  intros Ht Hu Hne.
  apply find_id_None in Ht. apply find_id_None in Hu. apply Z.eqb_neq in Hne.
  unfold like_tweet_route, unlike_tweet_route, follow_user_route,
    unfollow_user_route, like_tweet, unlike_tweet, follow_user, unfollow_user,
    Tweet_get, User_get.
  rewrite Ht, Hu, Hne. auto.
Qed.

Lemma missing_row_not_found_witness :
  like_tweet_route demo Commit alice 9
  = (demo, error_response "NotFoundError" msg_tweet_not_found 404)
  /\ unlike_tweet_route demo Commit alice 9
     = (demo, error_response "NotFoundError" msg_tweet_not_found 404)
  /\ follow_user_route demo Commit alice 9
     = (demo, error_response "NotFoundError" msg_user_not_found 404)
  /\ unfollow_user_route demo Commit alice 9
     = (demo, error_response "NotFoundError" msg_user_not_found 404).
Proof.
  apply (missing_row_not_found demo Commit alice 9 9); simpl.
  - intros [H | [H | [H | []]]]; discriminate.
  - intros [H | [H | [H | []]]]; discriminate.
  - discriminate.
Defined.

(** ** Uploads and new tweets *)

(** X9: a committed [upload_media] appends one row to the media table,
    with a fresh id, the given filename and path, the uploader as owner
    and no tweet; no tweet gains a media and every timeline stays as it
    was. *)
Theorem upload_media_adds_unattached_row (st : Store) (now : Z)
    (user : User.t) (filename path : string) :
  exists st1 media,
    upload_media st now Commit user filename path
    = (st1, (true, Some (Media.id media), None))
    /\ medias st1 = medias st ++ [media]
    /\ ~ In (Media.id media) (media_ids_of st)
    /\ media = Media.mk (Media.id media) filename path now (User.id user) None
    /\ (forall t, Tweet_medias st1 t = Tweet_medias st t)
    /\ (forall w, get_timeline st1 w = get_timeline st w).
Proof.
  eexists. eexists (Media.mk _ filename path now (User.id user) None).
  split; [reflexivity |]. simpl. split; [reflexivity |].
  split; [apply next_id_fresh |]. split; [reflexivity |].
  assert (forall t, Tweet_medias
                      (set_medias st
                         (medias st
                          ++ [Media.mk (next_id (map Media.id (medias st)))
                                filename path now (User.id user) None])) t
                    = Tweet_medias st t) as M.
  { intros t. unfold Tweet_medias. simpl. rewrite filter_app. simpl.
    apply app_nil_r. }
  split; [exact M |]. intros w. unfold get_timeline.
  change (tweets_query (set_medias st _) w) with (tweets_query st w).
  induction (tweets_query st w) as [|t l IH]; simpl; [reflexivity |].
  rewrite IH. unfold tweet_view.
  change (Tweet_user (set_medias st _) t) with (Tweet_user st t).
  destruct (Tweet_user st t); [| reflexivity].
  rewrite M. reflexivity.
Qed.

Lemma order_by_newest_last (rows : list Tweet.t) (r : Tweet.t) :
  (forall t, In t rows -> Tweet.created_at t < Tweet.created_at r) ->
  order_by_created_at_desc (rows ++ [r]) = r :: order_by_created_at_desc rows.
Proof.
  unfold order_by_created_at_desc. induction rows as [|a rows IH]; simpl;
    intros H; [reflexivity |].
  rewrite IH by (intros t Ht; apply H; now right). simpl.
  replace (Tweet.created_at r <=? Tweet.created_at a) with false;
    [reflexivity |].
  symmetry. apply Z.leb_gt. apply H. now left.
Qed.

(** The timeline queries after a committed [create_tweet] with the latest
    timestamp, by the filter of the query. *)
Lemma tweets_query_after_create (st : Store) (now : Z) (user : User.t)
    (content : string) (media_ids : option (list Z)) (w : User.t) :
  (forall t, In t (tweets st) -> Tweet.created_at t < now) ->
  tweets_query (fst (create_tweet st now Commit user content media_ids)) w
  = if (User.id user =? User.id w)
       || in_ (User.id user) (followed_ids st w)
    then Tweet.mk (next_id (tweet_ids st)) content now (User.id user)
         :: tweets_query st w
    else tweets_query st w.
Proof.
  intros Old. rewrite create_tweet_commit.
  unfold tweets_query at 1. simpl.
  change (followed_ids (mkStore (users st) _ _ (followers st) (likes st)) w)
    with (followed_ids st w).
  rewrite filter_app. simpl.
  destruct ((User.id user =? User.id w) || in_ (User.id user) (followed_ids st w)).
  - apply order_by_newest_last. intros t Ht. apply filter_In in Ht as [Ht _].
    simpl. auto.
  - now rewrite app_nil_r.
Qed.

(** X10: a committed [create_tweet] by a stored user, with a timestamp
    later than that of every stored tweet, puts the new tweet at the head
    of the timeline query of its author and of every user who has a row
    in the follower table towards the author, in front of what the query
    held before; the query of every other user is unchanged. *)
Theorem create_tweet_heads_timelines (st : Store) (now : Z) (user : User.t)
    (content : string) (media_ids : option (list Z)) :
  In (User.id user) (user_ids st) ->
  (forall t, In t (tweets st) -> Tweet.created_at t < now) ->
  exists st1 tweet,
    create_tweet st now Commit user content media_ids
    = (st1, (true, Some (Tweet.id tweet), None))
    /\ tweet = Tweet.mk (Tweet.id tweet) content now (User.id user)
    /\ forall w,
         (User.id w = User.id user
          \/ In (User.id w, User.id user) (followers st) ->
          tweets_query st1 w = tweet :: tweets_query st w)
         /\ (User.id w <> User.id user ->
             ~ In (User.id w, User.id user) (followers st) ->
             tweets_query st1 w = tweets_query st w).
Proof.
  intros Hu Old.
  pose proof (fun w => tweets_query_after_create st now user content media_ids
                         w Old) as Q.
  rewrite create_tweet_commit in *. eexists. eexists.
  split; [reflexivity |]. split; [reflexivity |]. intros w.
  specialize (Q w). cbn [fst] in Q. rewrite Q. split.
  - intros H.
    replace ((User.id user =? User.id w)
             || in_ (User.id user) (followed_ids st w)) with true;
      [reflexivity |].
    symmetry. apply orb_true_iff. destruct H as [E | F].
    + left. apply Z.eqb_eq. now symmetry.
    + right. apply in__In, followed_ids_In. auto.
  - intros Ne NF.
    replace ((User.id user =? User.id w)
             || in_ (User.id user) (followed_ids st w)) with false;
      [reflexivity |].
    symmetry. apply orb_false_iff. split.
    + apply Z.eqb_neq. congruence.
    + apply in__false. intros F. apply followed_ids_In in F as [_ F].
      contradiction.
Qed.

Lemma create_tweet_heads_timelines_witness :
  exists st1 tweet,
    create_tweet demo 200 Commit bob "Fresh" None
    = (st1, (true, Some (Tweet.id tweet), None))
    /\ tweet = Tweet.mk (Tweet.id tweet) "Fresh" 200 (User.id bob)
    /\ forall w,
         (User.id w = User.id bob
          \/ In (User.id w, User.id bob) (followers demo) ->
          tweets_query st1 w = tweet :: tweets_query demo w)
         /\ (User.id w <> User.id bob ->
             ~ In (User.id w, User.id bob) (followers demo) ->
             tweets_query st1 w = tweets_query demo w).
Proof.
  apply (create_tweet_heads_timelines demo 200 bob "Fresh" None).
  - simpl. auto.
  - simpl. intros t [<- | [<- | [<- | []]]]; simpl; lia.
Defined.

(** ** Invariants of the services *)

(** X11: called for a stored user, each of the seven services takes a
    database that respects the primary and foreign keys of models.py to
    one that does, whether its unit of work commits or raises. *)
Theorem services_keep_schema (st : Store) (now : Z) (db : Session)
    (user : User.t) (content filename path : string)
    (media_ids : option (list Z)) (tweet_id user_id : Z) :
  schema st ->
  In (User.id user) (user_ids st) ->
  schema (fst (create_tweet st now db user content media_ids))
  /\ schema (fst (upload_media st now db user filename path))
  /\ schema (fst (delete_tweet st db user tweet_id))
  /\ schema (fst (like_tweet st db user tweet_id))
  /\ schema (fst (unlike_tweet st db user tweet_id))
  /\ schema (fst (follow_user st db user user_id))
  /\ schema (fst (unfollow_user st db user user_id)).
Proof.
  intros S Hu.
  split; [now apply create_tweet_schema |].
  split; [now apply upload_media_schema |].
  split; [now apply delete_tweet_schema |].
  split; [now apply like_tweet_schema |].
  split; [now apply unlike_tweet_schema |].
  split; [now apply follow_user_schema | now apply unfollow_user_schema].
Qed.

Lemma services_keep_schema_witness :
  schema (fst (create_tweet demo 200 Commit alice "News" (Some [1; 2])))
  /\ schema (fst (upload_media demo 200 Commit alice "a.png" "static/uploads/a.png"))
  /\ schema (fst (delete_tweet demo Commit alice 1))
  /\ schema (fst (like_tweet demo Commit alice 1))
  /\ schema (fst (unlike_tweet demo Commit alice 1))
  /\ schema (fst (follow_user demo Commit alice 3))
  /\ schema (fst (unfollow_user demo Commit alice 3)).
Proof.
  apply (services_keep_schema demo 200 Commit alice "News" "a.png"
           "static/uploads/a.png" (Some [1; 2]) 1 3).
  - exact demo_schema.
  - simpl. auto.
Defined.

(** X12: no service ever stores a follow edge from a user to the same
    user: if the follower table has none, it has none after any of the
    seven services, whatever the arguments. *)
Theorem no_self_follow_kept (st : Store) (now : Z) (db : Session)
    (user : User.t) (content filename path : string)
    (media_ids : option (list Z)) (tweet_id user_id : Z) :
  (forall u, ~ In (u, u) (followers st)) ->
  forall u,
    ~ In (u, u) (followers (fst (create_tweet st now db user content media_ids)))
    /\ ~ In (u, u) (followers (fst (upload_media st now db user filename path)))
    /\ ~ In (u, u) (followers (fst (delete_tweet st db user tweet_id)))
    /\ ~ In (u, u) (followers (fst (like_tweet st db user tweet_id)))
    /\ ~ In (u, u) (followers (fst (unlike_tweet st db user tweet_id)))
    /\ ~ In (u, u) (followers (fst (follow_user st db user user_id)))
    /\ ~ In (u, u) (followers (fst (unfollow_user st db user user_id))).
Proof.
  intros H u. specialize (H u). repeat split.
  - destruct db; [| exact H]. now rewrite create_tweet_commit.
  - now destruct db.
  - unfold delete_tweet. destruct (Tweet_get st tweet_id) as [t|]; [| exact H].
    destruct (negb (Tweet.user_id t =? User.id user)); [exact H |].
    now destruct db.
  - unfold like_tweet. destruct (Tweet_get st tweet_id) as [t|]; [| exact H].
    destruct (existing_like st t user); [exact H |]. now destruct db.
  - unfold unlike_tweet. destruct (Tweet_get st tweet_id) as [t|]; [| exact H].
    destruct (existing_like st t user); [| exact H]. now destruct db.
  - unfold follow_user. destruct (User.id user =? user_id) eqn:E; [exact H |].
    unfold User_get. destruct (find _ (users st)) as [v|] eqn:G; [| exact H].
    apply find_id_sound in G as [_ G].
    destruct (in_following st v user); [exact H |].
    destruct db; [| exact H]. simpl. intros X.
    apply in_app_or in X as [X | [X | []]]; [contradiction |].
    apply Z.eqb_neq in E. congruence.
  - unfold unfollow_user. destruct (User_get st user_id) as [v|]; [| exact H].
    destruct (negb (in_following st v user)); [exact H |].
    destruct db; [| exact H]. simpl. intros X.
    now apply filter_In in X.
Qed.

Lemma no_self_follow_kept_witness :
  ~ In (1, 1) (followers (fst (create_tweet demo 200 Commit alice "News" None)))
  /\ ~ In (1, 1) (followers (fst (upload_media demo 200 Commit alice "a" "b")))
  /\ ~ In (1, 1) (followers (fst (delete_tweet demo Commit alice 1)))
  /\ ~ In (1, 1) (followers (fst (like_tweet demo Commit alice 1)))
  /\ ~ In (1, 1) (followers (fst (unlike_tweet demo Commit alice 1)))
  /\ ~ In (1, 1) (followers (fst (follow_user demo Commit alice 3)))
  /\ ~ In (1, 1) (followers (fst (unfollow_user demo Commit alice 3))).
Proof.
  apply (no_self_follow_kept demo 200 Commit alice "News" "a" "b" None 1 3).
  simpl. intros u [H | []]. injection H as <- H. discriminate.
Defined.

(** ** What deleting a tweet leaves alone *)

Lemma insert_desc_front (r : Tweet.t) (rows : list Tweet.t) :
  Forall (fun t => Tweet.created_at t <= Tweet.created_at r) rows ->
  insert_desc r rows = r :: rows.
Proof.
  destruct rows as [|a rows]; simpl; [reflexivity |].
  intros F. inversion F as [|? ? Ha _]; subst.
  apply Z.leb_le in Ha. now rewrite Ha.
Qed.

Lemma filter_insert_desc_drop (p : Tweet.t -> bool) (r : Tweet.t)
    (rows : list Tweet.t) :
  p r = false -> filter p (insert_desc r rows) = filter p rows.
Proof.
  intros Pr. induction rows as [|a rows IH]; simpl.
  - now rewrite Pr.
  - destruct (Tweet.created_at a <=? Tweet.created_at r); simpl.
    + now rewrite Pr.
    + now rewrite IH.
Qed.

Lemma filter_insert_desc_keep (p : Tweet.t -> bool) (r : Tweet.t)
    (rows : list Tweet.t) :
  StronglySorted not_older rows -> p r = true ->
  filter p (insert_desc r rows) = insert_desc r (filter p rows).
Proof.
  intros S Pr. induction rows as [|a rows IH]; simpl.
  - now rewrite Pr.
  - inversion S as [|? ? S' F]; subst.
    destruct (Tweet.created_at a <=? Tweet.created_at r) eqn:E.
    + apply Z.leb_le in E. simpl. rewrite Pr. destruct (p a) eqn:Pa.
      * simpl. apply Z.leb_le in E. now rewrite E.
      * symmetry. apply insert_desc_front.
        apply Forall_forall. intros t Ht. apply filter_In in Ht as [Ht _].
        rewrite Forall_forall in F. specialize (F t Ht).
        unfold not_older in F. lia.
    + simpl. destruct (p a); simpl.
      * rewrite E. f_equal. auto.
      * auto.
Qed.

(** Filtering commutes with the ORDER BY. *)
Lemma order_by_filter (p : Tweet.t -> bool) (rows : list Tweet.t) :
  order_by_created_at_desc (filter p rows)
  = filter p (order_by_created_at_desc rows).
Proof.
  induction rows as [|a rows IH]; simpl; [reflexivity |].
  destruct (p a) eqn:Pa.
  - simpl. rewrite IH. symmetry.
    apply filter_insert_desc_keep; [apply order_by_sorted | assumption].
  - rewrite IH. symmetry. now apply filter_insert_desc_drop.
Qed.

Lemma filter_comm {A : Type} (p q : A -> bool) (l : list A) :
  filter p (filter q l) = filter q (filter p l).
Proof.
  induction l as [|a l IH]; simpl; [reflexivity |].
  destruct (p a) eqn:Pa, (q a) eqn:Qa; simpl; rewrite ?Pa, ?Qa, IH;
    reflexivity.
Qed.

(** X13: a successful [delete_tweet] touches nothing but the tweet: the
    user and follower tables are unchanged, the other tweets and the like
    edges on other tweets are kept, a media that was not on the tweet is
    kept as it was, and every timeline query is the one before with the
    tweet taken out, the others in the same order. *)
Theorem delete_tweet_frame (st st' : Store) (db : Session) (user : User.t)
    (tweet_id : Z) :
  delete_tweet st db user tweet_id = (st', (true, None)) ->
  users st' = users st
  /\ followers st' = followers st
  /\ (forall t, In t (tweets st')
                <-> In t (tweets st) /\ Tweet.id t <> tweet_id)
  /\ (forall e, snd e <> tweet_id -> (In e (likes st') <-> In e (likes st)))
  /\ (forall m, In m (medias st) -> Media.tweet_id m <> Some tweet_id ->
                In m (medias st'))
  /\ (forall w, tweets_query st' w
                = filter (fun t => negb (Tweet.id t =? tweet_id))
                         (tweets_query st w)).
Proof.
  intros D. apply delete_tweet_success in D as [tweet [_ [E [_ ->]]]].
  subst tweet_id. split; [reflexivity |]. split; [reflexivity |].
  split; [| split; [| split]].
  - intros t. simpl. rewrite filter_In, negb_true_iff, Z.eqb_neq. tauto.
  - intros e Ne. simpl. rewrite filter_In. split; [tauto |].
    intros H. split; [assumption |]. apply Z.eqb_neq in Ne. now rewrite Ne.
  - intros m Hm A.
    now apply (proj1 (proj2 (proj2 (session_delete_tweet_medias st tweet)))).
  - intros w. unfold tweets_query.
    change (followed_ids (session_delete_tweet st tweet) w)
      with (followed_ids st w).
    simpl. rewrite filter_comm. apply order_by_filter.
Qed.

Lemma delete_tweet_frame_witness :
  let st' := fst (delete_tweet demo Commit alice 1) in
  users st' = users demo
  /\ followers st' = followers demo
  /\ (forall t, In t (tweets st') <-> In t (tweets demo) /\ Tweet.id t <> 1)
  /\ (forall e, snd e <> 1 -> (In e (likes st') <-> In e (likes demo)))
  /\ (forall m, In m (medias demo) -> Media.tweet_id m <> Some 1 ->
                In m (medias st'))
  /\ (forall w, tweets_query st' w
                = filter (fun t => negb (Tweet.id t =? 1))
                         (tweets_query demo w)).
Proof.
  apply (delete_tweet_frame demo _ Commit alice 1). reflexivity.
Defined.

(** X14: once [delete_tweet] has succeeded, the id is gone: deleting it
    again, by anyone and whatever the unit of work would do, reports
    "not found" and changes nothing, and liking it does the same. *)
Theorem delete_tweet_twice (st st' : Store) (db db' : Session)
    (user other : User.t) (tweet_id : Z) :
  delete_tweet st db user tweet_id = (st', (true, None)) ->
  delete_tweet st' db' other tweet_id = (st', (false, Some msg_tweet_not_found))
  /\ like_tweet st' db' other tweet_id = (st', (false, Some msg_tweet_not_found)).
Proof.
  intros D. apply delete_tweet_success in D as [tweet [_ [E [_ ->]]]].
  subst tweet_id.
  assert (Tweet_get (session_delete_tweet st tweet) (Tweet.id tweet) = None)
    as G.
  { apply find_id_None. intros H. apply in_map_iff in H as [t [E Ht]].
    apply session_delete_tweet_tweets in Ht as [_ Ht]. contradiction. }
  unfold delete_tweet, like_tweet. now rewrite G.
Qed.

Lemma delete_tweet_twice_witness :
  let st' := fst (delete_tweet demo Commit alice 1) in
  delete_tweet st' Commit bob 1 = (st', (false, Some msg_tweet_not_found))
  /\ like_tweet st' Commit bob 1 = (st', (false, Some msg_tweet_not_found)).
Proof.
  apply (delete_tweet_twice demo _ Commit Commit alice bob 1). reflexivity.
Defined.

(** * Properties of the routes *)

(** ** Allowed files *)

Lemma rsplit_dot_None (s : string) :
  rsplit_dot s = None <-> has_dot s = false.
Proof.
  induction s as [|c s IH]; simpl; [tauto |].
  destruct (rsplit_dot s) as [e|].
  - split; [discriminate |]. intros H. apply orb_false_iff in H as [_ H].
    apply IH in H. discriminate.
  - destruct (c =? ".")%char; simpl; [split; discriminate |].
    split; intros _; [now apply IH | reflexivity].
Qed.

Lemma has_dot_app (a b : string) :
  has_dot (a ++ b) = has_dot a || has_dot b.
Proof.
  induction a as [|c a IH]; simpl; [reflexivity |].
  now rewrite IH, orb_assoc.
Qed.

Lemma rsplit_dot_app (base ext : string) :
  has_dot ext = false -> rsplit_dot (base ++ "." ++ ext) = Some ext.
Proof.
  intros H. apply rsplit_dot_None in H.
  induction base as [|c base IH]; simpl in *.
  - now rewrite H.
  - now rewrite IH.
Qed.

Lemma lower_char_idem (c : ascii) : lower_char (lower_char c) = lower_char c.
Proof.
  destruct c as [[] [] [] [] [] [] [] []]; reflexivity.
Qed.

Lemma lower_idem (s : string) : lower (lower s) = lower s.
Proof.
  induction s as [|c s IH]; simpl; [reflexivity |].
  now rewrite lower_char_idem, IH.
Qed.

Lemma lower_char_dot (c : ascii) :
  (lower_char c =? ".")%char = (c =? ".")%char.
Proof.
  destruct c as [[] [] [] [] [] [] [] []]; reflexivity.
Qed.

Lemma has_dot_lower (s : string) : has_dot (lower s) = has_dot s.
Proof.
  induction s as [|c s IH]; simpl; [reflexivity |].
  now rewrite lower_char_dot, IH.
Qed.

(** X15: [allowed_file] looks at what follows the last dot and at nothing
    else, whatever the case of the letters: a name with no dot is
    refused, and a name [base.ext], [ext] without a dot, is allowed
    exactly when the lower-case [ext] is one of jpg, jpeg, png, gif.  The
    base may be empty or hold dots of its own. *)
Theorem allowed_file_by_last_extension (base ext : string) :
  has_dot ext = false ->
  allowed_file ext = false
  /\ allowed_file (base ++ "." ++ ext)
     = existsb (String.eqb (lower ext)) ALLOWED_EXTENSIONS
  /\ allowed_file (base ++ "." ++ lower ext) = allowed_file (base ++ "." ++ ext).
Proof.
  intros H.
  assert (forall e, has_dot e = false ->
                    allowed_file (base ++ "." ++ e)
                    = existsb (String.eqb (lower e)) ALLOWED_EXTENSIONS) as A.
  { intros e He. unfold allowed_file.
    rewrite rsplit_dot_app by assumption.
    rewrite has_dot_app. simpl. now rewrite orb_true_r. }
  split; [| split].
  - unfold allowed_file. now rewrite H.
  - now apply A.
  - rewrite !A; [now rewrite lower_idem | assumption |].
    now rewrite has_dot_lower.
Qed.

Lemma allowed_file_by_last_extension_witness :
  allowed_file "PNG" = false
  /\ allowed_file ("holiday.2024" ++ "." ++ "PNG")
     = existsb (String.eqb (lower "PNG")) ALLOWED_EXTENSIONS
  /\ allowed_file ("holiday.2024" ++ "." ++ lower "PNG")
     = allowed_file ("holiday.2024" ++ "." ++ "PNG").
Proof.
  apply (allowed_file_by_last_extension "holiday.2024" "PNG"). reflexivity.
Defined.

Lemma allowed_file_examples :
  allowed_file "test.jpg" = true
  /\ allowed_file "test.txt" = false
  /\ allowed_file "archive.png.zip" = false
  /\ allowed_file ".gif" = true
  /\ allowed_file "photo.JPEG" = true
  /\ allowed_file "photo.png." = false
  /\ allowed_file "png" = false.
Proof.
  repeat split.
Qed.

(** ** Authentication *)

(** X16: [require_api_key] runs the handler only for a row of the user
    table whose key is the non-empty key of the request.  It answers 401
    exactly for a request without a key or with the empty key, and 403
    exactly for a key no user has. *)
Theorem require_api_key_authenticates {R : Type} (st : Store)
    (api_key : option string) (f : User.t -> R) :
  match require_api_key st api_key f with
  | inr r =>
      exists user key,
        api_key = Some key /\ key <> "" /\ In user (users st)
        /\ User.api_key user = key /\ r = f user
  | inl err =>
      (err = mkAuthError 401 "API key missing"
       /\ (api_key = None \/ api_key = Some ""))
      \/ (err = mkAuthError 403 "Invalid API key"
          /\ exists key, api_key = Some key /\ key <> ""
                         /\ forall u, In u (users st) -> User.api_key u <> key)
  end.
Proof.
  unfold require_api_key. destruct api_key as [key|]; [| left; auto].
  destruct (key =? "")%string eqn:E.
  - apply String.eqb_eq in E. subst. left. auto.
  - apply String.eqb_neq in E. unfold User_by_api_key.
    destruct (find _ (users st)) as [user|] eqn:F.
    + apply find_some in F as [Hu K]. apply String.eqb_eq in K.
      exists user, key. auto.
    + right. split; [reflexivity |]. exists key. repeat split; auto.
      intros u Hu K. apply (find_none _ _ F) in Hu.
      apply String.eqb_neq in Hu. contradiction.
Qed.

Lemma find_key_unique {A : Type} (key : A -> string) (l : list A) (x : A) :
  NoDup (map key l) -> In x l ->
  find (fun y => (key y =? key x)%string) l = Some x.
Proof.
  induction l as [|a l IH]; simpl; [contradiction |].
  intros ND [E | H].
  - subst. now rewrite String.eqb_refl.
  - inversion ND as [|? ? Hn ND']; subst.
    destruct (key a =? key x)%string eqn:E.
    + apply String.eqb_eq in E. exfalso. apply Hn. rewrite E.
      now apply in_map.
    + auto.
Qed.

(** X17: where the keys of the user table are unique, as the column
    declares, a request with the non-empty key of a stored user reaches
    the handler as that user. *)
Theorem api_key_identifies_user {R : Type} (st : Store) (user : User.t)
    (f : User.t -> R) :
  NoDup (map User.api_key (users st)) ->
  In user (users st) ->
  User.api_key user <> "" ->
  require_api_key st (Some (User.api_key user)) f = inr (f user).
Proof.
  intros ND Hu Ne. unfold require_api_key, User_by_api_key.
  apply String.eqb_neq in Ne. rewrite Ne.
  now rewrite (find_key_unique User.api_key (users st) user ND Hu).
Qed.

Lemma api_key_identifies_user_witness :
  require_api_key demo (Some (User.api_key bob)) User.name = inr (User.name bob).
Proof.
  apply (api_key_identifies_user demo bob User.name).
  - simpl. repeat constructor; simpl; intuition discriminate.
  - simpl. auto.
  - discriminate.
Defined.

(** ** Requests behind the key check *)

Lemma User_by_api_key_stored (st : Store) (key : string) (user : User.t) :
  User_by_api_key st key = Some user -> In (User.id user) (user_ids st).
Proof.
  intros F. apply find_some in F as [F _]. now apply in_map.
Qed.

Lemma create_tweet_route_store (st : Store) (now : Z) (db : Session)
    (user : User.t) (tweet_data tweet_media_ids : option Json) :
  fst (create_tweet_route st now db user tweet_data tweet_media_ids) = st
  \/ exists text ids,
       fst (create_tweet_route st now db user tweet_data tweet_media_ids)
       = fst (create_tweet st now db user text ids).
Proof.
  unfold create_tweet_route.
  destruct tweet_data as [[]|]; auto.
  destruct (s =? "")%string; auto.
  destruct (Z.of_nat (len s) >? 280); auto.
  destruct tweet_media_ids as [[]|]; auto.
  - destruct (collect as_int items) as [ids|]; auto.
    right. exists s, (Some ids).
    now destruct (create_tweet st now db user s (Some ids)) as [st' [[[] i] e]].
  - right. exists s, (Some []).
    cbn [collect].
    now destruct (create_tweet st now db user s (Some [])) as [st' [[[] i] e]].
Qed.

Lemma service_route_store (r : Store * (bool * option string))
    (msg ty : string) (code : Z) :
  fst (match r with
       | (st', (true, _)) => (st', mkResponse 200 true None None None)
       | (st', (false, error)) =>
           let error := match error with Some e => e | None => "" end in
           if (error =? msg)%string
           then (st', error_response ty error code)
           else (st', error_response "ServerError" "Ошибка сервера" 500)
       end) = fst r.
Proof.
  destruct r as [st' [[] e]]; [reflexivity |]. simpl.
  now destruct (_ =? msg)%string.
Qed.

Lemma two_message_route_store (r : Store * (bool * option string))
    (msg1 msg2 ty1 ty2 : string) (code1 code2 : Z) :
  fst (match r with
       | (st', (true, _)) => (st', mkResponse 200 true None None None)
       | (st', (false, error)) =>
           let error := match error with Some e => e | None => "" end in
           if (error =? msg1)%string
           then (st', error_response ty1 error code1)
           else if (error =? msg2)%string
           then (st', error_response ty2 error code2)
           else (st', error_response "ServerError" "Ошибка сервера" 500)
       end) = fst r.
Proof.
  destruct r as [st' [[] e]]; [reflexivity |]. simpl.
  destruct (_ =? msg1)%string; [reflexivity |].
  now destruct (_ =? msg2)%string.
Qed.

(** X18: behind [require_api_key], every route that writes keeps the
    constraints of models.py, for every request: a refused request does
    not reach the handler, and an accepted one runs it for a stored
    user. *)
Theorem authenticated_requests_keep_schema (st : Store) (now : Z)
    (db : Session) (api_key : option string)
    (tweet_data tweet_media_ids : option Json) (tweet_id user_id : Z) :
  schema st ->
  let kept (r : AuthError + Store * Response) :=
    match r with
    | inl _ => True
    | inr (st', _) => schema st'
    end in
  kept (require_api_key st api_key
          (fun user => create_tweet_route st now db user tweet_data
                                          tweet_media_ids))
  /\ kept (require_api_key st api_key
             (fun user => delete_tweet_route st db user tweet_id))
  /\ kept (require_api_key st api_key
             (fun user => like_tweet_route st db user tweet_id))
  /\ kept (require_api_key st api_key
             (fun user => unlike_tweet_route st db user tweet_id))
  /\ kept (require_api_key st api_key
             (fun user => follow_user_route st db user user_id))
  /\ kept (require_api_key st api_key
             (fun user => unfollow_user_route st db user user_id)).
Proof.
  intros S kept. unfold kept, require_api_key.
  destruct api_key as [key|]; [| tauto].
  destruct (key =? "")%string; [tauto |].
  destruct (User_by_api_key st key) as [user|] eqn:F; [| tauto].
  apply User_by_api_key_stored in F.
  assert (forall r : Store * Response,
             schema (fst r) -> let (st', _) := r in schema st') as K
      by (now intros [st' resp]).
  split; [| split; [| split; [| split; [| split]]]]; apply K.
  - destruct (create_tweet_route_store st now db user tweet_data
                tweet_media_ids) as [-> | [text [ids ->]]];
      [assumption | now apply create_tweet_schema].
  - unfold delete_tweet_route. rewrite two_message_route_store.
    now apply delete_tweet_schema.
  - unfold like_tweet_route. rewrite service_route_store.
    now apply like_tweet_schema.
  - unfold unlike_tweet_route. rewrite service_route_store.
    now apply unlike_tweet_schema.
  - unfold follow_user_route. rewrite two_message_route_store.
    now apply follow_user_schema.
  - unfold unfollow_user_route. rewrite service_route_store.
    now apply unfollow_user_schema.
Qed.

Lemma authenticated_requests_keep_schema_witness :
  let kept (r : AuthError + Store * Response) :=
    match r with
    | inl _ => True
    | inr (st', _) => schema st'
    end in
  kept (require_api_key demo (Some "key-a")
          (fun user => create_tweet_route demo 200 Commit user
                         (Some (JStr "Hello")) (Some (JList [JInt 1]))))
  /\ kept (require_api_key demo (Some "key-a")
             (fun user => delete_tweet_route demo Commit user 1))
  /\ kept (require_api_key demo (Some "key-a")
             (fun user => like_tweet_route demo Commit user 1))
  /\ kept (require_api_key demo (Some "key-a")
             (fun user => unlike_tweet_route demo Commit user 1))
  /\ kept (require_api_key demo (Some "key-a")
             (fun user => follow_user_route demo Commit user 3))
  /\ kept (require_api_key demo (Some "key-a")
             (fun user => unfollow_user_route demo Commit user 3)).
Proof.
  apply (authenticated_requests_keep_schema demo 200 Commit (Some "key-a")
           (Some (JStr "Hello")) (Some (JList [JInt 1])) 1 3).
  exact demo_schema.
Defined.

(** ** Profiles *)

Lemma User_followers_In (st : Store) (user u : User.t) :
  In u (User_followers st user)
  <-> In u (users st) /\ In (User.id u, User.id user) (followers st).
Proof.
  unfold User_followers. now rewrite join_users_In, edge_snd_In.
Qed.

Lemma profile_following_In (st : Store) (user v : User.t) :
  In v (users st) ->
  In (User.id v, User.name v) (profile_following (serialize_user st user))
  <-> In (User.id user, User.id v) (followers st).
Proof.
  intros Hv. simpl. rewrite in_map_iff. split.
  - intros [v' [E H]]. apply User_following_In in H as [_ H].
    injection E as E _. now rewrite <- E.
  - intros H. exists v. split; [reflexivity |]. now apply User_following_In.
Qed.

Lemma profile_followers_In (st : Store) (user u : User.t) :
  In u (users st) ->
  In (User.id u, User.name u) (profile_followers (serialize_user st user))
  <-> In (User.id u, User.id user) (followers st).
Proof.
  intros Hu. simpl. rewrite in_map_iff. split.
  - intros [u' [E H]]. apply User_followers_In in H as [_ H].
    injection E as E _. now rewrite <- E.
  - intros H. exists u. split; [reflexivity |]. now apply User_followers_In.
Qed.

(** X19: the two lists of a profile mirror each other: for rows [u] and
    [v] of the user table, [v] is in the "following" of [u]'s profile
    exactly when [u] is in the "followers" of [v]'s profile. *)
Theorem profiles_mirror (st : Store) (u v : User.t) :
  In u (users st) ->
  In v (users st) ->
  In (User.id v, User.name v) (profile_following (serialize_user st u))
  <-> In (User.id u, User.name u) (profile_followers (serialize_user st v)).
Proof.
  intros Hu Hv. now rewrite profile_following_In, profile_followers_In.
Qed.

Lemma profiles_mirror_witness :
  In (User.id bob, User.name bob) (profile_following (serialize_user demo alice))
  <-> In (User.id alice, User.name alice)
         (profile_followers (serialize_user demo bob)).
Proof.
  apply (profiles_mirror demo alice bob); simpl; auto.
Defined.

(** X20: after a committed [follow_user] between two rows of the user
    table, the follower's profile lists the followed user under
    "following" and the followed user's profile lists the follower under
    "followers"; after a committed [unfollow_user] neither does. *)
Theorem follow_user_shows_in_profiles (st : Store) (user target : User.t) :
  In user (users st) ->
  In target (users st) ->
  User.id target <> User.id user ->
  (exists st1,
      follow_user st Commit user (User.id target) = (st1, (true, None))
      /\ In (User.id target, User.name target)
            (profile_following (serialize_user st1 user))
      /\ In (User.id user, User.name user)
            (profile_followers (serialize_user st1 target)))
  /\ (exists st2,
        unfollow_user st Commit user (User.id target) = (st2, (true, None))
        /\ ~ In (User.id target, User.name target)
                (profile_following (serialize_user st2 user))
        /\ ~ In (User.id user, User.name user)
                (profile_followers (serialize_user st2 target))).
Proof.
  intros Hu Hv Hne.
  assert (In (User.id target) (user_ids st)) as Iv by now apply in_map.
  destruct (User_get_stored st (User.id target) Iv) as [v [G [Hv' E]]].
  split.
  - assert (exists st1,
               follow_user st Commit user (User.id target) = (st1, (true, None))
               /\ users st1 = users st
               /\ In (User.id user, User.id target) (followers st1)) as X.
    { unfold follow_user.
      replace (User.id user =? User.id target) with false
        by (symmetry; apply Z.eqb_neq; congruence).
      rewrite G. destruct (in_following st v user) eqn:F.
      - exists st. repeat split.
        apply in_following_true in F as [_ F]. now rewrite <- E.
      - eexists. split; [reflexivity |]. split; [reflexivity |]. simpl.
        apply in_or_app. right. left. now rewrite E. }
    destruct X as [st1 [R [U F]]]. exists st1. split; [assumption |].
    rewrite profile_following_In, profile_followers_In by now rewrite U.
    auto.
  - assert (exists st2,
               unfollow_user st Commit user (User.id target)
               = (st2, (true, None))
               /\ users st2 = users st
               /\ ~ In (User.id user, User.id target) (followers st2)) as X.
    { unfold unfollow_user. rewrite G.
      destruct (in_following st v user) eqn:F; simpl.
      - eexists. split; [reflexivity |]. split; [reflexivity |]. simpl.
        rewrite filter_In. simpl. rewrite E, !Z.eqb_refl. simpl.
        intros [_ X]. discriminate.
      - exists st. repeat split. intros X.
        assert (in_following st v user = true) as Y; [| congruence].
        apply in_following_true. rewrite E. auto. }
    destruct X as [st2 [R [U F]]]. exists st2. split; [assumption |].
    rewrite profile_following_In, profile_followers_In by now rewrite U.
    auto.
Qed.

Lemma follow_user_shows_in_profiles_witness :
  (exists st1,
      follow_user demo Commit alice (User.id carol) = (st1, (true, None))
      /\ In (User.id carol, User.name carol)
            (profile_following (serialize_user st1 alice))
      /\ In (User.id alice, User.name alice)
            (profile_followers (serialize_user st1 carol)))
  /\ (exists st2,
        unfollow_user demo Commit alice (User.id carol) = (st2, (true, None))
        /\ ~ In (User.id carol, User.name carol)
                (profile_following (serialize_user st2 alice))
        /\ ~ In (User.id alice, User.name alice)
                (profile_followers (serialize_user st2 carol))).
Proof.
  apply (follow_user_shows_in_profiles demo alice carol); simpl; auto.
  discriminate.
Defined.

(** X21: [get_user_profile_route] answers 404 [NotFoundError] for an id
    no user has; for the id of a row of the user table, ids being
    unique, it answers with the profile of that very row. *)
Theorem get_user_profile_route_finds (st : Store) (user : User.t)
    (missing : Z) :
  NoDup (user_ids st) ->
  In user (users st) ->
  ~ In missing (user_ids st) ->
  get_user_profile_route st (User.id user) = inr (serialize_user st user)
  /\ get_user_profile_route st missing
     = inl (error_response "NotFoundError" msg_user_not_found 404).
Proof.
  intros ND Hu Hm. unfold get_user_profile_route, get_user_by_id, User_get.
  rewrite (find_id_unique User.id (users st) user ND Hu).
  apply find_id_None in Hm. now rewrite Hm.
Qed.

Lemma get_user_profile_route_finds_witness :
  get_user_profile_route demo (User.id bob) = inr (serialize_user demo bob)
  /\ get_user_profile_route demo 9
     = inl (error_response "NotFoundError" msg_user_not_found 404).
Proof.
  apply (get_user_profile_route_finds demo bob 9); simpl; auto.
  - repeat constructor; simpl; intuition discriminate.
  - intros [H | [H | [H | []]]]; discriminate.
Defined.

(** ** Uploads through the route *)

Lemma read_file_saved (fs : Files) (path data : string) :
  read_file (file_save fs path data) path = Some data.
Proof.
  unfold read_file, file_save. simpl. now rewrite String.eqb_refl.
Qed.

(** X22: [upload_media_route] refuses a request without a file part, with
    an empty filename or with a filename [allowed_file] rejects: it
    answers 400 [ValidationError], writes no file and leaves the database
    as it was, whatever the unit of work would have done. *)
Theorem upload_media_route_rejects (secure_filename : string -> string)
    (fs : Files) (st : Store) (now : Z) (db : Session) (user : User.t)
    (file : option (string * string)) :
  match file with
  | None => True
  | Some (name, _) => name = "" \/ allowed_file name = false
  end ->
  exists msg,
    upload_media_route secure_filename fs st now db user file
    = (fs, st, error_response "ValidationError" msg 400).
Proof.
  unfold upload_media_route. destruct file as [[name data]|]; [| eauto].
  intros [-> | A]; [simpl; eauto |].
  destruct (name =? "")%string; [eauto |]. rewrite A. simpl. eauto.
Qed.

Lemma upload_media_route_rejects_witness :
  exists msg,
    upload_media_route (fun s => s) [] demo 200 Commit alice
      (Some ("test.txt", "test data"))
    = ([], demo, error_response "ValidationError" msg 400).
Proof.
  apply (upload_media_route_rejects (fun s => s) [] demo 200 Commit alice
           (Some ("test.txt", "test data"))).
  right. reflexivity.
Defined.

(** X23: for a non-empty allowed filename the route saves the bytes under
    the upload folder joined with the secured name and, when the unit of
    work commits, answers 201 with the id of a new media row of the user
    that carries the secured name and that path.  When the unit of work
    raises, the answer is 500 [ServerError] and no row is stored, but the
    file has been written all the same. *)
Theorem upload_media_route_stores (secure_filename : string -> string)
    (fs : Files) (st : Store) (now : Z) (user : User.t)
    (name data e : string) :
  name <> "" ->
  allowed_file name = true ->
  let path := path_join (path_join "static" "uploads") (secure_filename name) in
  (exists st' media,
      upload_media_route secure_filename fs st now Commit user
        (Some (name, data))
      = (file_save fs path data, st',
         mkResponse 201 true (Some (Media.id media)) None None)
      /\ medias st' = medias st ++ [media]
      /\ media = Media.mk (next_id (media_ids_of st)) (secure_filename name)
                          path now (User.id user) None
      /\ read_file (file_save fs path data) (Media.path media) = Some data)
  /\ upload_media_route secure_filename fs st now (SQLAlchemyError e) user
       (Some (name, data))
     = (file_save fs path data, st,
        error_response "ServerError" "Internal server error" 500).
Proof.
  intros Ne A path. apply String.eqb_neq in Ne.
  unfold upload_media_route. rewrite Ne, A. simpl. split; [| reflexivity].
  eexists.
  exists (Media.mk (next_id (media_ids_of st)) (secure_filename name) path now
                   (User.id user) None).
  split; [reflexivity |]. split; [reflexivity |].
  split; [reflexivity |]. apply read_file_saved.
Qed.

Lemma upload_media_route_stores_witness :
  let path := path_join (path_join "static" "uploads") "test.jpg" in
  (exists st' media,
      upload_media_route (fun s => s) [] demo 200 Commit alice
        (Some ("test.jpg", "test image data"))
      = (file_save [] path "test image data", st',
         mkResponse 201 true (Some (Media.id media)) None None)
      /\ medias st' = medias demo ++ [media]
      /\ media = Media.mk (next_id (media_ids_of demo)) "test.jpg"
                          path 200 (User.id alice) None
      /\ read_file (file_save [] path "test image data") (Media.path media)
         = Some "test image data")
  /\ upload_media_route (fun s => s) [] demo 200 (SQLAlchemyError "down") alice
       (Some ("test.jpg", "test image data"))
     = (file_save [] path "test image data", demo,
        error_response "ServerError" "Internal server error" 500).
Proof.
  apply (upload_media_route_stores (fun s => s) [] demo 200 alice "test.jpg"
           "test image data" "down").
  - discriminate.
  - reflexivity.
Defined.

(** X24: two committed uploads whose secured names agree, by whichever
    users, give two media rows with different ids but one path and one
    URL, and the upload folder holds the bytes of the second upload
    there: the first media now shows the second file. *)
Theorem upload_same_name_overwrites (secure_filename : string -> string)
    (fs : Files) (st : Store) (now1 now2 : Z) (user1 user2 : User.t)
    (name1 name2 data1 data2 : string) :
  name1 <> "" -> name2 <> "" ->
  allowed_file name1 = true -> allowed_file name2 = true ->
  secure_filename name1 = secure_filename name2 ->
  exists fs1 st1 r1 fs2 st2 r2 m1 m2,
    upload_media_route secure_filename fs st now1 Commit user1
      (Some (name1, data1)) = (fs1, st1, r1)
    /\ upload_media_route secure_filename fs1 st1 now2 Commit user2
         (Some (name2, data2)) = (fs2, st2, r2)
    /\ payload_id r1 = Some (Media.id m1)
    /\ payload_id r2 = Some (Media.id m2)
    /\ In m1 (medias st2) /\ In m2 (medias st2)
    /\ Media.id m1 <> Media.id m2
    /\ Media.path m1 = Media.path m2
    /\ Media.get_url m1 = Media.get_url m2
    /\ read_file fs2 (Media.path m1) = Some data2.
Proof.
  intros N1 N2 A1 A2 E. apply String.eqb_neq in N1, N2.
  unfold upload_media_route. rewrite N1, N2, A1, A2. simpl.
  do 6 eexists.
  exists (Media.mk (next_id (map Media.id (medias st))) (secure_filename name1)
            (path_join (path_join "static" "uploads") (secure_filename name1))
            now1 (User.id user1) None).
  eexists (Media.mk _ (secure_filename name2) _ now2 (User.id user2) None).
  split; [reflexivity |]. split; [reflexivity |].
  split; [reflexivity |]. split; [reflexivity |]. simpl.
  split; [apply in_or_app; left; apply in_or_app; right; now left |].
  split; [apply in_or_app; right; now left |].
  split.
  - intros X.
    apply (next_id_fresh
             (map Media.id
                (medias st
                 ++ [Media.mk (next_id (map Media.id (medias st)))
                       (secure_filename name1)
                       (path_join (path_join "static" "uploads")
                                  (secure_filename name1))
                       now1 (User.id user1) None]))).
    rewrite <- X at 1. rewrite map_app. apply in_or_app. right. now left.
  - rewrite E. split; [reflexivity |]. split; [reflexivity |].
    apply read_file_saved.
Qed.

Lemma upload_same_name_overwrites_witness :
  exists fs1 st1 r1 fs2 st2 r2 m1 m2,
    upload_media_route (fun s => s) [] demo 200 Commit alice
      (Some ("cat.png", "alice's cat")) = (fs1, st1, r1)
    /\ upload_media_route (fun s => s) fs1 st1 210 Commit bob
         (Some ("cat.png", "bob's cat")) = (fs2, st2, r2)
    /\ payload_id r1 = Some (Media.id m1)
    /\ payload_id r2 = Some (Media.id m2)
    /\ In m1 (medias st2) /\ In m2 (medias st2)
    /\ Media.id m1 <> Media.id m2
    /\ Media.path m1 = Media.path m2
    /\ Media.get_url m1 = Media.get_url m2
    /\ read_file fs2 (Media.path m1) = Some "bob's cat".
Proof.
  apply (upload_same_name_overwrites (fun s => s) [] demo 200 210 alice bob
           "cat.png" "cat.png" "alice's cat" "bob's cat");
    try discriminate; reflexivity.
Defined.

(** * Waiting for the database (main.py) *)

Lemma wait_for_db_loop_connected (connect : nat -> bool) (left i k : nat) :
  wait_for_db_loop connect i left = (Connected, k)
  <-> (k < left)%nat /\ connect (i + k)%nat = true
      /\ forall j, (j < k)%nat -> connect (i + j)%nat = false.
Proof.
  revert i k. induction left as [|left IH]; intros i k; simpl.
  - split; [discriminate | intros [H _]; lia].
  - destruct (connect i) eqn:C.
    + split.
      * intros [= <-]. rewrite Nat.add_0_r. repeat split; [lia | auto |].
        intros j Hj. lia.
      * intros [_ [Ck F]]. destruct k as [|k]; [reflexivity |].
        specialize (F 0%nat ltac:(lia)). rewrite Nat.add_0_r in F. congruence.
    + destruct (wait_for_db_loop connect (S i) left) as [r s] eqn:W. split.
      * intros [= -> <-]. apply IH in W as [L [Ck F]].
        split; [lia |]. split; [now rewrite Nat.add_succ_r |].
        intros [|j] Hj; [now rewrite Nat.add_0_r |].
        rewrite Nat.add_succ_r. apply (F j). lia.
      * intros [L [Ck F]]. destruct k as [|k].
        { rewrite Nat.add_0_r in Ck. congruence. }
        assert (wait_for_db_loop connect (S i) left = (Connected, k)) as X.
        { apply IH. split; [lia |]. split.
          - now rewrite Nat.add_succ_r in Ck.
          - intros j Hj. specialize (F (S j) ltac:(lia)).
            now rewrite Nat.add_succ_r in F. }
        rewrite W in X. now injection X as -> ->.
Qed.

Lemma wait_for_db_loop_gives_up (connect : nat -> bool) (left i n : nat)
    (msg : string) :
  wait_for_db_loop connect i left = (RuntimeError msg, n)
  <-> msg = msg_db_timeout /\ n = left
      /\ forall j, (j < left)%nat -> connect (i + j)%nat = false.
Proof.
  revert i n. induction left as [|left IH]; intros i n; simpl.
  - split.
    + intros [= <- <-]. repeat split. intros j Hj. lia.
    + intros [-> [-> _]]. reflexivity.
  - destruct (connect i) eqn:C.
    + split; [discriminate |]. intros [_ [_ F]].
      specialize (F 0%nat ltac:(lia)). rewrite Nat.add_0_r in F. congruence.
    + destruct (wait_for_db_loop connect (S i) left) as [r s] eqn:W. split.
      * intros [= -> <-]. apply IH in W as [M [-> F]].
        split; [assumption |]. split; [reflexivity |].
        intros [|j] Hj; [now rewrite Nat.add_0_r |].
        rewrite Nat.add_succ_r. apply (F j). lia.
      * intros [-> [-> F]].
        assert (wait_for_db_loop connect (S i) left
                = (RuntimeError msg_db_timeout, left)) as X.
        { apply IH. repeat split. intros j Hj.
          specialize (F (S j) ltac:(lia)). now rewrite Nat.add_succ_r in F. }
        rewrite W in X. now injection X as -> ->.
Qed.

(** X25: [wait_for_db] returns after [k] sleeps exactly when attempt [k]
    (counting from 0) is within the retries and is the first that
    connects. *)
Theorem wait_for_db_first_success (connect : nat -> bool) (retries : Z)
    (k : nat) :
  wait_for_db connect retries = (Connected, k)
  <-> (Z.of_nat k < retries)
      /\ connect k = true
      /\ forall j, (j < k)%nat -> connect j = false.
Proof.
  unfold wait_for_db. rewrite wait_for_db_loop_connected. simpl.
  split; intros [L H]; (split; [lia | exact H]).
Qed.

(** X26: [wait_for_db] raises [RuntimeError] exactly when every attempt
    within the retries fails, and it has then slept once per attempt, the
    last one included; with [retries <= 0] it raises without an attempt
    and without sleeping. *)
Theorem wait_for_db_gives_up (connect : nat -> bool) (retries : Z)
    (msg : string) (sleeps : nat) :
  (wait_for_db connect retries = (RuntimeError msg, sleeps)
   <-> msg = msg_db_timeout /\ sleeps = Z.to_nat retries
       /\ forall j, (Z.of_nat j < retries) -> connect j = false)
  /\ (retries <= 0 ->
      wait_for_db connect retries = (RuntimeError msg_db_timeout, 0%nat)).
Proof.
  unfold wait_for_db. split.
  - rewrite wait_for_db_loop_gives_up. simpl.
    split; intros [M [N F]]; (split; [exact M |]); (split; [exact N |]);
      intros j Hj; apply F; lia.
  - intros H. replace (Z.to_nat retries) with 0%nat by lia. reflexivity.
Qed.

(** * More on timelines and tweets *)

(** X27: where tweet ids are unique, a stored user's timeline shows no
    tweet twice, also when the user follows the author of a tweet and is
    that author too: the ids of the views are pairwise different and
    there is one view per selected tweet. *)
Theorem get_timeline_no_duplicates (st : Store) (user : User.t) :
  NoDup (tweet_ids st) ->
  In (User.id user) (user_ids st) ->
  exists views,
    get_timeline st user = Some views
    /\ NoDup (map view_id views)
    /\ List.length views
       = List.length
           (filter (fun t => (Tweet.user_id t =? User.id user)
                             || in_ (Tweet.user_id t) (followed_ids st user))
                   (tweets st)).
Proof.
  intros ND Hu. destruct (get_timeline_total st user Hu) as [views V].
  exists views. split; [assumption |].
  pose proof (get_timeline_ids st user views V) as Ids. split.
  - rewrite Ids. unfold tweets_query.
    eapply Permutation_NoDup.
    + apply Permutation_map. symmetry. apply order_by_perm.
    + now apply NoDup_map_filter.
  - rewrite <- (length_map view_id), Ids, length_map. unfold tweets_query.
    apply Permutation_length. apply order_by_perm.
Qed.

Lemma get_timeline_no_duplicates_witness :
  exists views,
    get_timeline demo alice = Some views
    /\ NoDup (map view_id views)
    /\ List.length views
       = List.length
           (filter (fun t => (Tweet.user_id t =? User.id alice)
                             || in_ (Tweet.user_id t) (followed_ids demo alice))
                   (tweets demo)).
Proof.
  apply (get_timeline_no_duplicates demo alice).
  - exact (pk_tweet demo demo_schema).
  - simpl. auto.
Defined.

Lemma filter_all {A : Type} (f : A -> bool) (l : list A) :
  (forall x, In x l -> f x = true) -> filter f l = l.
Proof.
  induction l as [|a l IH]; simpl; intros H; [reflexivity |].
  rewrite (H a) by now left. f_equal. apply IH. intros x Hx. apply H.
  now right.
Qed.

Lemma map_same {A : Type} (f : A -> A) (l : list A) :
  (forall x, In x l -> f x = x) -> map f l = l.
Proof.
  intros H. rewrite <- (map_id l) at 2. now apply map_ext_in.
Qed.

Lemma find_app_none {A : Type} (f : A -> bool) (l l' : list A) :
  find f l = None -> find f (l ++ l') = find f l'.
Proof.
  induction l as [|a l IH]; simpl; [reflexivity |].
  destruct (f a); [discriminate | exact IH].
Qed.

(** X28: in a database that respects its constraints, creating a tweet
    without media and deleting it again, both committed, gives the
    database back as it was, row for row. *)
Theorem create_then_delete_restores (st : Store) (now : Z) (user : User.t)
    (content : string) :
  schema st ->
  exists st1 tweet_id,
    create_tweet st now Commit user content None
    = (st1, (true, Some tweet_id, None))
    /\ delete_tweet st1 Commit user tweet_id = (st, (true, None)).
Proof.
  intros S. rewrite create_tweet_commit. eexists. eexists.
  split; [reflexivity |].
  set (tweet := Tweet.mk (next_id (tweet_ids st)) content now (User.id user)).
  assert (forall t, In t (tweets st) -> Tweet.id t <> Tweet.id tweet) as Fresh.
  { intros t Ht E. apply (next_id_fresh (tweet_ids st)).
    change (next_id (tweet_ids st)) with (Tweet.id tweet). rewrite <- E.
    now apply in_map. }
  unfold delete_tweet, Tweet_get. cbn [tweets].
  rewrite find_app_none.
  2:{ apply find_id_None. intros H.
      apply in_map_iff in H as [t [E Ht]]. now apply (Fresh t). }
  cbn [find]. rewrite Z.eqb_refl. cbn [Tweet.user_id tweet].
  rewrite Z.eqb_refl. cbn [negb]. f_equal.
  rewrite (map_same (attach (given_ids None) user tweet))
    by (intros m _; apply attach_skipped; simpl; tauto).
  unfold session_delete_tweet. cbn [users tweets medias followers likes].
  rewrite filter_app. cbn [filter]. rewrite Z.eqb_refl. cbn [negb].
  rewrite app_nil_r. rewrite filter_all.
  2:{ intros t Ht. apply negb_true_iff, Z.eqb_neq. now apply Fresh. }
  rewrite map_same.
  2:{ intros m Hm. destruct (Media.tweet_id m) as [i|] eqn:A; [| reflexivity].
      destruct (i =? Tweet.id tweet) eqn:E; [| reflexivity].
      apply Z.eqb_eq in E. subst i. exfalso.
      now apply (stored_media_not_on_new_tweet st m S Hm). }
  rewrite filter_all.
  2:{ intros e He. apply negb_true_iff, andb_false_iff. left.
      apply Z.eqb_neq. intros E.
      apply (next_id_fresh (tweet_ids st)).
      change (next_id (tweet_ids st)) with (Tweet.id tweet). rewrite <- E.
      now apply (fk_likes st S e). }
  now destruct st.
Qed.

Lemma create_then_delete_restores_witness :
  exists st1 tweet_id,
    create_tweet demo 200 Commit alice "Oops" None
    = (st1, (true, Some tweet_id, None))
    /\ delete_tweet st1 Commit alice tweet_id = (demo, (true, None)).
Proof.
  apply (create_then_delete_restores demo 200 alice "Oops").
  exact demo_schema.
Defined.

Lemma wait_for_db_gives_up_witness :
  wait_for_db (fun _ => true) (-1) = (RuntimeError msg_db_timeout, 0%nat).
Proof.
  apply (proj2 (wait_for_db_gives_up (fun _ => true) (-1) msg_db_timeout 0%nat)).
  lia.
Defined.

Lemma wait_for_db_examples :
  wait_for_db (fun i => (2 <=? i)%nat) 10 = (Connected, 2%nat)
  /\ wait_for_db (fun _ => false) 10 = (RuntimeError msg_db_timeout, 10%nat)
  /\ wait_for_db (fun i => (2 <=? i)%nat) 2 = (RuntimeError msg_db_timeout, 2%nat).
Proof.
  repeat split.
Qed.
